(** * torchneuromorphic.transforms: event-stream transforms

    A shallow embedding of [torchneuromorphic/transforms.py].  Event arrays
    ([tmad], an N x 4 integer numpy array) are lists of [Event] records,
    dense tensors are nested lists of integers, Python exceptions are the
    [Raise] arm of [Result], and numpy arrays that are updated in place live
    in an explicit [heap]. *)

From Stdlib Require Import ZArith Lia Bool.
From stdpp Require Import base list strings gmap.

Open Scope Z_scope.

(** ** Exceptions *)

Inductive exn :=
  | IndexError
  | NameError
  | ValueError
  | RuntimeError
  | TypeError
  | OverflowError.

Inductive Result (A : Type) :=
  | Ok (a : A)
  | Raise (e : exn).
Arguments Ok {A} a.
Arguments Raise {A} e.

#[global] Instance Result_ret : MRet Result := @Ok.
#[global] Instance Result_bind : MBind Result := λ A B k r,
  match r with
  | Ok a => k a
  | Raise e => Raise e
  end.
#[global] Instance Result_fmap : FMap Result := λ A B f r,
  match r with
  | Ok a => Ok (f a)
  | Raise e => Raise e
  end.

(** ** Events *)

(** One row of [tmad]: the columns are (timestamp, polarity, x, y). *)
Record Event := mkEvent { ev_t : Z; ev_p : Z; ev_x : Z; ev_y : Z }.

(** ** [bisect.bisect_left] and [find_first] *)

(** The loop of [bisect_left(a, x)]:
    [while lo < hi: mid = (lo + hi) // 2;
       if a[mid] < x: lo = mid + 1  else: hi = mid].
    Every iteration shrinks [hi - lo], so [hi - lo] units of fuel are enough
    (lemma [bisect_loop_fuel]). *)
Fixpoint bisect_loop (fuel : nat) (a : list Z) (x : Z) (lo hi : nat) : nat :=
  match fuel with
  | O => lo
  | S fuel' =>
      if (lo <? hi)%nat then
        let mid := ((lo + hi) / 2)%nat in
        if nth mid a 0 <? x
        then bisect_loop fuel' a x (mid + 1)%nat hi
        else bisect_loop fuel' a x lo mid
      else lo
  end.

Definition bisect_left (a : list Z) (x : Z) : nat :=
  bisect_loop (length a) a x 0%nat (length a).

Definition find_first (a : list Z) (tgt : Z) : nat := bisect_left a tgt.

(** ** Dense integer tensors *)

Abbreviation Tensor1 := (list Z).
Abbreviation Tensor2 := (list Tensor1).
Abbreviation Tensor3 := (list Tensor2).
Abbreviation Tensor4 := (list Tensor3).

(** [np.zeros([n] + size)] with [size = [C, H, W]]. *)
Definition zeros3 (C H W : nat) : Tensor3 :=
  replicate C (replicate H (replicate W 0)).
Definition zeros4 (n C H W : nat) : Tensor4 := replicate n (zeros3 C H W).

(** Sum of all the cells of a tensor. *)
Definition sumw {A} (g : A → Z) (l : list A) : Z :=
  foldr (λ a s, g a + s) 0 l.
Definition sum1 : Tensor1 → Z := sumw id.
Definition sum2 : Tensor2 → Z := sumw sum1.
Definition sum3 : Tensor3 → Z := sumw sum2.
Definition sum4 : Tensor4 → Z := sumw sum3.

Definition get4 (c : Tensor4) (i p x y : nat) : option Z :=
  l3 ← c !! i; l2 ← l3 !! p; l1 ← l2 !! x; l1 !! y.

(** [c[i, p, x, y] = f(c[i, p, x, y])] *)
Definition upd4 (f : Z → Z) (i p x y : nat) (c : Tensor4) : Tensor4 :=
  alter (alter (alter (alter f y) x) p) i c.

(** Arithmetic of the element type [int8]: results wrap into
    [-128 .. 127]. *)
Definition wrap8 (z : Z) : Z := (z + 128) mod 256 - 128.

(** numpy's treatment of an index [k] on an axis of length [n]: [0 <= k < n]
    is itself, [-n <= k < 0] counts from the end, anything else is an
    [IndexError]. *)
Definition norm_index (n : nat) (k : Z) : option nat :=
  if (0 <=? k) && (k <? Z.of_nat n) then Some (Z.to_nat k)
  else if (- Z.of_nat n <=? k) && (k <? 0) then Some (Z.to_nat (k + Z.of_nat n))
  else None.

(** ** Binning: [ToCountFrame] and [ToEventSum] *)

(** Instance configuration of both binners: [T] bins ([range(0, T)] has no
    element for a negative [T], which is not told apart from [T = 0]) and
    [size = [C, H, W]]. *)
Record BinCfg := mkBinCfg { T : nat; size_C : nat; size_H : nat; size_W : nat }.

(** The cell of the frame an event's address columns select, if they are
    valid indices.  [addrs = tmad[:, 1:]] keeps the rows and drops the
    timestamp, so [ee[:, 0]], [ee[:, 1]] and [ee[:, 2]] are the columns p, x
    and y of the rows of the slice. *)
Definition cell_of (cfg : BinCfg) (e : Event) : option (nat * nat * nat) :=
  p ← norm_index (size_C cfg) (ev_p e);
  x ← norm_index (size_H cfg) (ev_x e);
  y ← norm_index (size_W cfg) (ev_y e);
  Some (p, x, y).

(** [np.add.at(chunks, (i, ee[:, 0], ee[:, 1], ee[:, 2]), 1)]: an unbuffered
    [chunks[i, p, x, y] += 1] for every row of [ee], in [int8]. *)
Fixpoint add_at (cfg : BinCfg) (chunks : Tensor4) (i : nat) (ee : list Event)
  : Result Tensor4 :=
  match ee with
  | [] => Ok chunks
  | e :: ee' =>
      match cell_of cfg e with
      | Some (p, x, y) =>
          add_at cfg (upd4 (λ v, wrap8 (v + 1)) i p x y chunks) i ee'
      | None => Raise IndexError
      end
  end.

(** [enumerate(ts)] *)
Definition enumerate {A} (l : list A) : list (nat * A) :=
  zip (seq 0 (length l)) l.

(** The loop shared by the two [__call__] bodies, which differ only in the
    value searched for: [t + 1] in [ToCountFrame], [t] in [ToEventSum].
    [target t] is that value.
<<
    for i, t in enumerate(ts):
        idx_end += find_first(times[idx_end:], target(t))
        if idx_end > idx_start:
            ee = addrs[idx_start:idx_end]
            np.add.at(chunks, (i, ee[:, 0], ee[:, 1], ee[:, 2]), 1)
        idx_start = idx_end
>> *)
Fixpoint bin_loop (target : nat → Z) (cfg : BinCfg) (tmad : list Event)
    (its : list (nat * nat)) (chunks : Tensor4) (idx_start idx_end : nat)
  : Result Tensor4 :=
  match its with
  | [] => Ok chunks
  | (i, t) :: its' =>
      let times := map ev_t tmad in
      let idx_end := (idx_end + find_first (drop idx_end times) (target t))%nat in
      chunks' ← (if (idx_start <? idx_end)%nat
                 then add_at cfg chunks i
                        (take (idx_end - idx_start) (drop idx_start tmad))
                 else Ok chunks);
      bin_loop target cfg tmad its' chunks' idx_end idx_end
  end.

(** [times[0]] and [times[-1]] *)
Definition first_item (times : list Z) : Result Z :=
  match times with
  | [] => Raise IndexError
  | t :: _ => Ok t
  end.
Definition last_item (times : list Z) : Result Z :=
  match last times with
  | None => Raise IndexError
  | Some t => Ok t
  end.

Definition binning (target : nat → Z) (cfg : BinCfg) (tmad : list Event)
  : Result Tensor4 :=
  let times := map ev_t tmad in
  t_start ← first_item times;
  t_end ← last_item times;
  let ts := seq 0 (T cfg) in
  let chunks := zeros4 (length ts) (size_C cfg) (size_H cfg) (size_W cfg) in
  bin_loop target cfg tmad (enumerate ts) chunks 0 0.

(** [ToCountFrame.__call__]: the search target is [t + 1]. *)
Definition ToCountFrame (cfg : BinCfg) (tmad : list Event) : Result Tensor4 :=
  binning (λ t, Z.of_nat t + 1) cfg tmad.

(** The [chunks] of [ToEventSum.__call__] before the final sum: the search
    target is [t]. *)
Definition ToEventSum_chunks (cfg : BinCfg) (tmad : list Event)
  : Result Tensor4 :=
  binning (λ t, Z.of_nat t) cfg tmad.

(** [chunks.sum(axis=0, keepdims=True)]: the layers added cell by cell into
    one layer.  numpy sums [int8] in the platform integer, which cannot wrap
    for fewer than [2^56] layers. *)
Definition add3 (a b : Tensor3) : Tensor3 :=
  zip_with (zip_with (zip_with Z.add)) a b.
Definition sum_axis0 (cfg : BinCfg) (chunks : Tensor4) : Tensor4 :=
  [foldr add3 (zeros3 (size_C cfg) (size_H cfg) (size_W cfg)) chunks].

Definition ToEventSum (cfg : BinCfg) (tmad : list Event) : Result Tensor4 :=
  sum_axis0 cfg <$> ToEventSum_chunks cfg tmad.

(** ** numpy arrays as objects

    A transform receives a reference to an array object.  [np.delete] and
    arithmetic such as [tmad // factor] build a new object; an item
    assignment ([tmad[:, d] = ...], [tmad[:, 2:] -= ...]) writes into the
    object the variable currently refers to.  The heap maps references to the
    rows of the array they denote. *)

Definition loc := nat.
Abbreviation heap := (list (list Event)).

Definition M (A : Type) : Type := heap → Result A * heap.

#[global] Instance M_ret : MRet M := λ A a h, (Ok a, h).
#[global] Instance M_bind : MBind M := λ A B k m h,
  match m h with
  | (Ok a, h') => k a h'
  | (Raise e, h') => (Raise e, h')
  end.

Definition raise {A} (e : exn) : M A := λ h, (Raise e, h).
Definition lift {A} (r : Result A) : M A := λ h, (r, h).

(** A new array object holding [a]. *)
Definition new_array (a : list Event) : M loc := λ h, (Ok (length h), h ++ [a]).
(** The rows of the object at [l].  Python hands out no reference without
    an object, so the second arm is never reached from a call. *)
Definition read (l : loc) : M (list Event) := λ h,
  match h !! l with
  | Some a => (Ok a, h)
  | None => (Raise RuntimeError, h)
  end.
(** In-place replacement of the rows of the object at [l]. *)
Definition write (l : loc) (a : list Event) : M unit := λ h, (Ok (), <[l := a]> h).

(** Column [d] of a row. *)
Definition col (d : nat) (e : Event) : Z :=
  match d with
  | 0%nat => ev_t e
  | 1%nat => ev_p e
  | 2%nat => ev_x e
  | _ => ev_y e
  end.
Definition set_col (d : nat) (v : Z) (e : Event) : Event :=
  match d with
  | 0%nat => mkEvent v (ev_p e) (ev_x e) (ev_y e)
  | 1%nat => mkEvent (ev_t e) v (ev_x e) (ev_y e)
  | 2%nat => mkEvent (ev_t e) (ev_p e) v (ev_y e)
  | _ => mkEvent (ev_t e) (ev_p e) (ev_x e) v
  end.

(** [tmad[:, d]]: an [IndexError] when the array has no column [d]. *)
Definition column (d : nat) (a : list Event) : Result (list Z) :=
  if (d <? 4)%nat then Ok (map (col d) a) else Raise IndexError.

(** [seq[i]] on a Python list. *)
Definition item (l : list Z) (i : nat) : Result Z :=
  match l !! i with
  | Some v => Ok v
  | None => Raise IndexError
  end.

(** [np.where(mask)]: the positions at which [mask] holds. *)
Fixpoint np_where_from (i : nat) (mask : list bool) : list nat :=
  match mask with
  | [] => []
  | b :: mask' =>
      if b then i :: np_where_from (S i) mask' else np_where_from (S i) mask'
  end.
Definition np_where (mask : list bool) : list nat := np_where_from 0 mask.

(** [np.delete(a, idx, 0)]: the rows of [a] whose position is not in
    [idx]. *)
Fixpoint np_delete_from {A} (i : nat) (a : list A) (idx : list nat) : list A :=
  match a with
  | [] => []
  | r :: a' =>
      if existsb (Nat.eqb i) idx then np_delete_from (S i) a' idx
      else r :: np_delete_from (S i) a' idx
  end.
Definition np_delete {A} (a : list A) (idx : list nat) : list A :=
  np_delete_from 0 a idx.

(** ** [Downsample] *)

(** The rows of [tmad] are [int64], the type numpy gives an array of
    integers. *)
Definition in_int64 (z : Z) : bool := (- 2 ^ 63 <=? z) && (z <? 2 ^ 63).

(** An integer in the range of [int64]. *)
Record Int64 := mkInt64 { int64_val : Z; int64_ok : in_int64 int64_val = true }.

(** [factor] is an [int], any Python integer, or an iterable, which
    broadcasts over the four columns.  The iterable is one that numpy reads as
    an [int64] array: an array of that type, or a list of integers in its
    range. *)
Inductive Factor :=
  | FInt (k : Z)
  | FSeq (ks : list Int64).

(** numpy's [//] on [int64]: it rounds towards minus infinity like [Z.div],
    gives [0] for a zero divisor, and [-2^63 // -1], whose quotient [2^63] is
    out of range, stays [-2^63]. *)
Definition floordiv64 (x k : Z) : Z :=
  if (x =? - 2 ^ 63) && (k =? -1) then - 2 ^ 63 else x / k.

Definition floordiv_row (kt kp kx ky : Z) (e : Event) : Event :=
  mkEvent (floordiv64 (ev_t e) kt) (floordiv64 (ev_p e) kp)
          (floordiv64 (ev_x e) kx) (floordiv64 (ev_y e) ky).

(** [tmad // self.factor].  A Python [int] is converted to the type of the
    array first, which raises [OverflowError] when it is out of the range of
    [int64]. *)
Definition Downsample (factor : Factor) (tmad : loc) : M loc :=
  a ← read tmad;
  match factor with
  | FInt k =>
      if in_int64 k then new_array (map (floordiv_row k k k k) a)
      else raise OverflowError
  | FSeq [k] =>
      let k := int64_val k in new_array (map (floordiv_row k k k k) a)
  | FSeq [kt; kp; kx; ky] =>
      new_array (map (floordiv_row (int64_val kt) (int64_val kp)
                        (int64_val kx) (int64_val ky)) a)
  | FSeq _ => raise ValueError
  end.

(** ** [Crop] *)

Record CropCfg := mkCropCfg { low : list Z; high : list Z }.

(** What a global name of the module can be bound to. *)
Inductive PyObj :=
  | PyModule
  | PyFunction
  | PyClass
  | PyBounds (v : list Z).

(** The names bound at the top level of [transforms.py], in order: the
    imports, [find_first] and the classes.  A name that is neither local nor
    global is looked up among the builtins, none of which is [high_crop]. *)
Definition transforms_globals : gmap string PyObj :=
  list_to_map
    [("np", PyModule); ("pd", PyModule); ("torch", PyModule);
     ("bisect", PyModule); ("Compose", PyClass); ("ToTensor", PyClass);
     ("Normalize", PyClass); ("Lambda", PyClass);
     ("find_first", PyFunction); ("Jitter", PyClass); ("toOneHot", PyClass);
     ("Downsample", PyClass); ("Crop", PyClass); ("CropDims", PyClass);
     ("CropCenter", PyClass); ("Attention", PyClass);
     ("ToChannelHeightWidth", PyClass); ("ToCountFrame", PyClass);
     ("ToEventSum", PyClass); ("FilterEvents", PyClass);
     ("ExpFilterEvents", PyClass); ("Rescale", PyClass); ("Repeat", PyClass)].

(** Evaluation of a name that is not a local variable. *)
Definition load_global (globals : gmap string PyObj) (name : string)
  : Result PyObj :=
  match globals !! name with
  | Some o => Ok o
  | None => Raise NameError
  end.

(** [tmad > bound] and [tmad < bound] need an array-like [bound] with one
    entry per column. *)
Definition as_bounds (o : PyObj) : Result (Z * Z * Z * Z) :=
  match o with
  | PyBounds [bt; bp; bx; by_] => Ok (bt, bp, bx, by_)
  | PyBounds _ => Raise ValueError
  | _ => Raise TypeError
  end.

Definition any_gt (b : Z * Z * Z * Z) (e : Event) : bool :=
  let '(bt, bp, bx, by_) := b in
  (bt <? ev_t e) || (bp <? ev_p e) || (bx <? ev_x e) || (by_ <? ev_y e).
Definition any_lt (b : Z * Z * Z * Z) (e : Event) : bool :=
  let '(bt, bp, bx, by_) := b in
  (ev_t e <? bt) || (ev_p e <? bp) || (ev_x e <? bx) || (ev_y e <? by_).

(** [Crop.__call__]: both comparisons read the global name [high_crop],
    which is evaluated before the comparison looks at the rows;
    [self.low] and [self.high] are never used. *)
Definition Crop (globals : gmap string PyObj) (cfg : CropCfg) (tmad : loc)
  : M loc :=
  o ← lift (load_global globals "high_crop");
  a ← read tmad;
  b ← lift (as_bounds o);
  tmad ← new_array (np_delete a (np_where (map (any_gt b) a)));
  o ← lift (load_global globals "high_crop");
  a ← read tmad;
  b ← lift (as_bounds o);
  tmad ← new_array (np_delete a (np_where (map (any_lt b) a)));
  mret tmad.

(** ** [CropDims] *)

(** [dims] are column numbers counted from the left; the bounds are
    sequences indexed by the position of the column in [dims]. *)
Record CropDimsCfg := mkCropDimsCfg
  { low_crop : list Z; high_crop : list Z; dims : list nat }.

Fixpoint CropDims_loop (cfg : CropDimsCfg) (ids : list (nat * nat))
    (tmad : loc) : M loc :=
  match ids with
  | [] => mret tmad
  | (i, d) :: ids' =>
      a ← read tmad;
      c ← lift (column d a);
      hi ← lift (item (high_crop cfg) i);
      tmad ← new_array (np_delete a (np_where (map (λ v, hi <=? v) c)));
      a ← read tmad;
      c ← lift (column d a);
      lo ← lift (item (low_crop cfg) i);
      tmad ← new_array (np_delete a (np_where (map (λ v, v <? lo) c)));
      a ← read tmad;
      c ← lift (column d a);
      lo ← lift (item (low_crop cfg) i);
      _ ← write tmad (zip_with (set_col d) (map (λ v, v - lo) c) a);
      CropDims_loop cfg ids' tmad
  end.

Definition CropDims (cfg : CropDimsCfg) (tmad : loc) : M loc :=
  CropDims_loop cfg (enumerate (dims cfg)) tmad.

(** ** [CropCenter] *)

Record CropCenterCfg := mkCropCenterCfg
  { center : Z * Z; att_shape : Z * Z; translation : Z * Z }.

Definition uint32 (z : Z) : Z := z mod 2 ^ 32.
Definition in_uint32 (z : Z) : bool := (0 <=? z) && (z <? 2 ^ 32).

(** [CropCenter.__init__(center, size)] with [center = [cx, cy]] and
    [size = [C, H, W]], lists of Python integers.
    [np.array(..., dtype=np.uint32)] raises [OverflowError] for an entry that
    is negative or not below [2^32].  The difference
    [center - self.att_shape // 2] is computed in [int64] and may be negative;
    [astype(np.uint32)] reduces it modulo [2^32]. *)
Definition CropCenter_init (center : Z * Z) (size : Z * Z * Z)
  : Result CropCenterCfg :=
  let '(_, h, w) := size in
  if in_uint32 (fst center) && in_uint32 (snd center) then
    if in_uint32 h && in_uint32 w then
      Ok {| center := center;
            att_shape := (h, w);
            translation := (uint32 (fst center - h / 2),
                            uint32 (snd center - w / 2)) |}
    else Raise OverflowError
  else Raise OverflowError.

(** [CropCenter.__call__]; the coordinates of [tmad] are taken to be signed
    and wide enough for the subtraction not to wrap. *)
Definition CropCenter (cfg : CropCenterCfg) (tmad : loc) : M loc :=
  a ← read tmad;
  let trans := replicate (length a) (translation cfg) in
  _ ← write tmad
        (zip_with (λ e tr, mkEvent (ev_t e) (ev_p e) (ev_x e - fst tr) (ev_y e - snd tr))
           a trans);
  a ← read tmad;
  tmad ← new_array
    (np_delete a (np_where (map (λ e, (fst (att_shape cfg) <=? ev_x e)
                                     || (snd (att_shape cfg) <=? ev_y e)) a)));
  a ← read tmad;
  tmad ← new_array
    (np_delete a (np_where (map (λ e, (ev_x e <? 0) || (ev_y e <? 0)) a)));
  mret tmad.

(** ** The transforms of event arrays as one family *)

Inductive Transform :=
  | TDownsample (factor : Factor)
  | TCrop (cfg : CropCfg)
  | TCropDims (cfg : CropDimsCfg)
  | TCropCenter (cfg : CropCenterCfg)
  | TToCountFrame (cfg : BinCfg)
  | TToEventSum (cfg : BinCfg).

(** What a call returns: a reference to an event array, or a dense
    tensor. *)
Inductive Value :=
  | VArray (l : loc)
  | VTensor (c : Tensor4).

Definition call (tr : Transform) (tmad : loc) : M Value :=
  match tr with
  | TDownsample f => l ← Downsample f tmad; mret (VArray l)
  | TCrop cfg => l ← Crop transforms_globals cfg tmad; mret (VArray l)
  | TCropDims cfg => l ← CropDims cfg tmad; mret (VArray l)
  | TCropCenter cfg => l ← CropCenter cfg tmad; mret (VArray l)
  | TToCountFrame cfg => a ← read tmad; c ← lift (ToCountFrame cfg a); mret (VTensor c)
  | TToEventSum cfg => a ← read tmad; c ← lift (ToEventSum cfg a); mret (VTensor c)
  end.

(** The data a returned value denotes in the heap the call left behind. *)
Inductive Content :=
  | CArray (a : list Event)
  | CTensor (c : Tensor4)
  | CRaise (e : exn)
  | CDangling.

Definition content (r : Result Value * heap) : Content :=
  match r with
  | (Ok (VArray l), h) =>
      match h !! l with
      | Some a => CArray a
      | None => CDangling
      end
  | (Ok (VTensor c), _) => CTensor c
  | (Raise e, _) => CRaise e
  end.

(** ** [Jitter] *)

(** [Jitter] works on float tensors of five axes (batch, time, channel, x,
    y).  The element type and the floating-point arithmetic of the angle are
    not interpreted: [ajitter_of r th] stands for
    [(r - 0.5) * th / 180 * np.pi], [round_x x y cosTh sinTh xjitter] for
    [round(x*cosTh - y*sinTh + xjitter)] and [round_y x y sinTh cosTh yjitter]
    for [round(x*sinTh + y*cosTh + yjitter)]. *)
Record FloatOps (F : Type) := mkFloatOps
  { fzero : F;
    ajitter_of : F → Z → F;
    np_sin : F → F;
    np_cos : F → F;
    round_x : nat → nat → F → F → Z → Z;
    round_y : nat → nat → F → F → Z → Z }.
Arguments fzero {F}. Arguments ajitter_of {F}. Arguments np_sin {F}.
Arguments np_cos {F}. Arguments round_x {F}. Arguments round_y {F}.

Record Tensor5 (F : Type) := mkTensor5
  { shape5 : nat * nat * nat * nat * nat;
    at5 : nat → nat → nat → nat → nat → F }.
Arguments mkTensor5 {F}. Arguments shape5 {F}. Arguments at5 {F}.

Record JitterCfg := mkJitterCfg
  { xs : Z; ys : Z; th : Z; jsize : nat * nat * nat }.

(** What the global generator hands to one call: the results of the two
    [np.random.randint] calls and of [np.random.rand]. *)
Record Draws (F : Type) := mkDraws { draw_x : Z; draw_y : Z; draw_a : F }.
Arguments mkDraws {F}. Arguments draw_x {F}. Arguments draw_y {F}.
Arguments draw_a {F}.

(** [np.random.randint(n)] needs [0 < n]. *)
Definition randint (n : Z) (draw : Z) : Result Z :=
  if 0 <? n then Ok draw else Raise ValueError.

(** [if v < 0: v = 0] then [if v > n - 1: v = n - 1]. *)
Definition clamp (n : nat) (v : Z) : Z :=
  let v := if v <? 0 then 0 else v in
  if Z.of_nat n - 1 <? v then Z.of_nat n - 1 else v.

(** One pass of the loop body, [jittered[:,:,:,xnew,ynew] = data[:,:,:,x,y]]. *)
Definition Jitter_body {F} (ops : FloatOps F) (cfg : JitterCfg)
    (xjitter yjitter : Z) (sinTh cosTh : F) (data jittered : Tensor5 F)
    (xy : nat * nat) : Result (Tensor5 F) :=
  let '(x, y) := xy in
  let '(s0, s1, s2) := jsize cfg in
  let xnew := Z.to_nat (clamp s1 (round_x ops x y cosTh sinTh xjitter)) in
  let ynew := Z.to_nat (clamp s2 (round_y ops x y sinTh cosTh yjitter)) in
  let '(_, _, C, X, Y) := shape5 data in
  if (x <? X)%nat && (y <? Y)%nat then
    if (C =? s0)%nat || (C =? 1)%nat then
      Ok (mkTensor5 (shape5 jittered)
            (λ n t c x' y',
               if (x' =? xnew)%nat && (y' =? ynew)%nat
               then at5 data n t (if (C =? 1)%nat then 0%nat else c) x y
               else at5 jittered n t c x' y'))
    else Raise RuntimeError
  else Raise IndexError.

Fixpoint fold_result {A B} (f : A → B → Result A) (a : A) (l : list B)
  : Result A :=
  match l with
  | [] => Ok a
  | b :: l' => a' ← f a b; fold_result f a' l'
  end.

Definition Jitter {F} (ops : FloatOps F) (cfg : JitterCfg) (rng : Draws F)
    (data : Tensor5 F) : Result (Tensor5 F) :=
  if (xs cfg =? 0) && (ys cfg =? 0) && (th cfg =? 0) then Ok data
  else
    rx ← randint (2 * xs cfg) (draw_x rng);
    let xjitter := rx - xs cfg in
    ry ← randint (2 * ys cfg) (draw_y rng);
    let yjitter := ry - ys cfg in
    let ajitter := ajitter_of ops (draw_a rng) (th cfg) in
    let sinTh := np_sin ops ajitter in
    let cosTh := np_cos ops ajitter in
    let '(s0, s1, s2) := jsize cfg in
    let '(n, t, _, _, _) := shape5 data in
    let jittered := mkTensor5 (n, t, s0, s1, s2) (λ _ _ _ _ _, fzero ops) in
    fold_result
      (Jitter_body ops cfg xjitter yjitter sinTh cosTh data)
      jittered
      (x ← seq 0 s1; y ← seq 0 s2; [(x, y)]).

(** The float operations when [th = 0], on floats with integer values:
    the angle [(r - 0.5) * 0 / 180 * pi] is zero, its sine is 0.0 and its
    cosine 1.0, and the products and sums under [round] are exact. *)
Definition ops_th0 : FloatOps Z :=
  {| fzero := 0;
     ajitter_of := λ _ _, 0;
     np_sin := λ _, 0;
     np_cos := λ _, 1;
     round_x := λ x y cosTh sinTh xjitter,
       Z.of_nat x * cosTh - Z.of_nat y * sinTh + xjitter;
     round_y := λ x y sinTh cosTh yjitter,
       Z.of_nat x * sinTh + Z.of_nat y * cosTh + yjitter |}.

(** ** [toOneHot] *)

(** The label array: one axis, or two. *)
Inductive IntArray :=
  | Arr1 (l : list Z)
  | Arr2 (rows : list (list Z)).

Definition shape0 (a : IntArray) : nat :=
  match a with
  | Arr1 l => length l
  | Arr2 rows => length rows
  end.

(** [row[k] = 1] for every [k] of [idx]; an index outside the row is a
    [RuntimeError]. *)
Fixpoint scatter_row (row : list Z) (idx : list Z) : Result (list Z) :=
  match idx with
  | [] => Ok row
  | k :: idx' =>
      if (0 <=? k) && (k <? Z.of_nat (length row))
      then scatter_row (<[Z.to_nat k := 1]> row) idx'
      else Raise RuntimeError
  end.

Fixpoint scatter_rows (self : list (list Z)) (index : list (list Z))
  : Result (list (list Z)) :=
  match index, self with
  | [], _ => Ok self
  | _ :: _, [] => Raise RuntimeError
  | idx :: index', row :: self' =>
      row' ← scatter_row row idx;
      rest ← scatter_rows self' index';
      Ok (row' :: rest)
  end.

(** [self.scatter_(1, index, 1)] on a tensor of two axes: an index without
    elements changes nothing, otherwise [index] must have two axes as well,
    and [self[i][index[i][j]] = 1].  The floats [0.] and [1.] are written
    [0] and [1]. *)
Definition scatter_1 (self : list (list Z)) (index : IntArray)
  : Result (list (list Z)) :=
  match index with
  | Arr1 [] => Ok self
  | Arr1 _ => Raise RuntimeError
  | Arr2 rows => scatter_rows self rows
  end.

Definition toOneHot (num_classes : nat) (integers : IntArray)
  : Result (list (list Z)) :=
  let y_onehot := replicate (shape0 integers) (replicate num_classes 0) in
  scatter_1 y_onehot integers.

(** ** [FilterEvents] and [ExpFilterEvents] *)

(** A kernel of shape (out_channels, 1, length, 1, 1): its first and third
    dimensions, and the weights along time of each output channel. *)
Record Kernel (F : Type) := mkKernel
  { out_channels : nat; kernel_length : nat; weights : list (list F) }.
Arguments mkKernel {F}. Arguments out_channels {F}.
Arguments kernel_length {F}. Arguments weights {F}.

Record FilterEvents (F : Type) := mkFilterEvents
  { kernel : Kernel F; groups : nat; tpad : nat }.
Arguments mkFilterEvents {F}. Arguments kernel {F}. Arguments groups {F}.
Arguments tpad {F}.

(** [FilterEvents.__init__]: [tpad] defaults to [kernel.shape[2] // 2]. *)
Definition FilterEvents_init {F} (kernel : Kernel F) (groups : nat)
    (tpad : option nat) : FilterEvents F :=
  {| kernel := kernel;
     groups := groups;
     tpad := match tpad with
             | None => (kernel_length kernel / 2)%nat
             | Some p => p
             end |}.

(** [ExpFilterEvents.__init__].  [exp_kernel length tau] stands for the
    float vector [exp(-t/tau)], [t = 0 .. length-1], normalised and
    flipped; every output channel gets a copy. *)
Definition ExpFilterEvents_init {F} (exp_kernel : nat → Z → list F)
    (length : nat) (tau : Z) (channels : nat) (tpad : option nat)
  : FilterEvents F :=
  let kernel := mkKernel channels length
                  (replicate channels (exp_kernel length tau)) in
  let groups := 2%nat in
  FilterEvents_init kernel groups tpad.

(** * Specification vocabulary *)

(** Ascending timestamps. *)
Fixpoint is_sorted (l : list Z) : bool :=
  match l with
  | [] => true
  | v :: l' => forallb (Z.leb v) l' && is_sorted l'
  end.

(** Number of entries of [a] below [x]. *)
Definition count_lt (a : list Z) (x : Z) : nat :=
  length (filter (λ v, v < x) a).

(** The index ranges [(idx_start, idx_end)] the loop of [bin_loop] cuts, one
    per bin. *)
Fixpoint bin_slices (target : nat → Z) (times : list Z) (ts : list nat)
    (idx_end : nat) : list (nat * nat) :=
  match ts with
  | [] => []
  | t :: ts' =>
      let e := (idx_end + find_first (drop idx_end times) (target t))%nat in
      (idx_end, e) :: bin_slices target times ts' e
  end.

Definition CountFrame_slices (cfg : BinCfg) (tmad : list Event)
  : list (nat * nat) :=
  bin_slices (λ t, Z.of_nat t + 1) (map ev_t tmad) (seq 0 (T cfg)) 0.

(** On ascending timestamps, with a target that does not decrease, bin [t]
    is cut at the counts of timestamps below consecutive targets (lemma
    [bin_slices_sorted]). *)
Definition slice_of (target : nat → Z) (times : list Z) (t : nat) : nat * nat :=
  (match t with
   | O => 0%nat
   | S t' => count_lt times (target t')
   end,
   count_lt times (target t)).

(** The rows [addrs[idx_start:idx_end]] of a slice. *)
Definition slice_rows (tmad : list Event) (se : nat * nat) : list Event :=
  take (snd se - fst se) (drop (fst se) tmad).

(** The event at position [k] is scattered into bin [i]. *)
Definition in_bin (slices : list (nat * nat)) (i k : nat) : Prop :=
  ∃ s e, slices !! i = Some (s, e) ∧ (s ≤ k < e)%nat.

(** The updates of [bin_loop], given the slices. *)
Fixpoint scatter (cfg : BinCfg) (tmad : list Event) (chunks : Tensor4)
    (items : list (nat * (nat * nat))) : Result Tensor4 :=
  match items with
  | [] => Ok chunks
  | (i, se) :: items' =>
      chunks' ← (if (fst se <? snd se)%nat
                 then add_at cfg chunks i (slice_rows tmad se)
                 else Ok chunks);
      scatter cfg tmad chunks' items'
  end.

(** Every cell of the first [n] layers exists. *)
Definition full (cfg : BinCfg) (n : nat) (c : Tensor4) : Prop :=
  ∀ i p x y, (i < n)%nat → (p < size_C cfg)%nat → (x < size_H cfg)%nat →
             (y < size_W cfg)%nat → is_Some (get4 c i p x y).

(** Every event of every slice addresses a cell of the frame. *)
Definition valid_cells (cfg : BinCfg) (tmad : list Event)
    (slices : list (nat * nat)) : bool :=
  forallb (λ se, forallb (λ e, bool_decide (is_Some (cell_of cfg e)))
                   (slice_rows tmad se)) slices.

(** Number of events of [ee] that address the cell [c]. *)
Definition cell_count (cfg : BinCfg) (ee : list Event)
    (c : option (nat * nat * nat)) : nat :=
  length (filter (λ e, cell_of cfg e = c) ee).

(** No cell of any bin receives more than 127 events. *)
Definition fits_int8 (cfg : BinCfg) (tmad : list Event)
    (slices : list (nat * nat)) : bool :=
  forallb (λ se, let ee := slice_rows tmad se in
                 forallb (λ e, (cell_count cfg ee (cell_of cfg e) <=? 127)%nat) ee)
    slices.

(** The bin each binner gives a timestamp, if any: [ToCountFrame] puts
    [t < 1] in bin 0 and [i <= t < i + 1] in bin [i]; [ToEventSum] puts
    [t < 0] in bin 0 and [i - 1 <= t < i] in bin [i]. *)
Definition CountFrame_bin (T : nat) (t : Z) : option nat :=
  if (t <? Z.of_nat T) && (0 <? T)%nat then Some (Z.to_nat t) else None.
Definition EventSum_bin (T : nat) (t : Z) : option nat :=
  if (t <? 0) && (0 <? T)%nat then Some 0%nat
  else if (0 <=? t) && (t + 1 <? Z.of_nat T) then Some (Z.to_nat (t + 1))
  else None.

(** ** The transforms as functions of the rows alone *)

Definition crop_rows (f : Event → bool) (a : list Event) : list Event :=
  filter (λ e, f e = false) a.

Definition Downsample_rows (factor : Factor) (a : list Event)
  : Result (list Event) :=
  match factor with
  | FInt k =>
      if in_int64 k then Ok (map (floordiv_row k k k k) a)
      else Raise OverflowError
  | FSeq [k] =>
      let k := int64_val k in Ok (map (floordiv_row k k k k) a)
  | FSeq [kt; kp; kx; ky] =>
      Ok (map (floordiv_row (int64_val kt) (int64_val kp)
                (int64_val kx) (int64_val ky)) a)
  | FSeq _ => Raise ValueError
  end.

Definition Crop_rows (globals : gmap string PyObj) (a : list Event)
  : Result (list Event) :=
  o ← load_global globals "high_crop";
  b ← as_bounds o;
  let a := crop_rows (any_gt b) a in
  o ← load_global globals "high_crop";
  b ← as_bounds o;
  Ok (crop_rows (any_lt b) a).

Definition CropDims_step (cfg : CropDimsCfg) (a : list Event) (id : nat * nat)
  : Result (list Event) :=
  let '(i, d) := id in
  _ ← column d a;
  hi ← item (high_crop cfg) i;
  let a := crop_rows (λ e, hi <=? col d e) a in
  lo ← item (low_crop cfg) i;
  let a := crop_rows (λ e, col d e <? lo) a in
  Ok (map (λ e, set_col d (col d e - lo) e) a).

Definition CropDims_rows (cfg : CropDimsCfg) (a : list Event)
  : Result (list Event) :=
  fold_result (CropDims_step cfg) a (enumerate (dims cfg)).

Definition translate (tr : Z * Z) (e : Event) : Event :=
  mkEvent (ev_t e) (ev_p e) (ev_x e - fst tr) (ev_y e - snd tr).

Definition CropCenter_rows (cfg : CropCenterCfg) (a : list Event)
  : list Event :=
  crop_rows (λ e, (ev_x e <? 0) || (ev_y e <? 0))
    (crop_rows (λ e, (fst (att_shape cfg) <=? ev_x e)
                     || (snd (att_shape cfg) <=? ev_y e))
       (map (translate (translation cfg)) a)).

Definition content_of_rows (r : Result (list Event)) : Content :=
  match r with
  | Ok a => CArray a
  | Raise e => CRaise e
  end.
Definition content_of_tensor (r : Result Tensor4) : Content :=
  match r with
  | Ok c => CTensor c
  | Raise e => CRaise e
  end.

Definition denote (tr : Transform) (a : list Event) : Content :=
  match tr with
  | TDownsample f => content_of_rows (Downsample_rows f a)
  | TCrop cfg => content_of_rows (Crop_rows transforms_globals a)
  | TCropDims cfg => content_of_rows (CropDims_rows cfg a)
  | TCropCenter cfg => CArray (CropCenter_rows cfg a)
  | TToCountFrame cfg => content_of_tensor (ToCountFrame cfg a)
  | TToEventSum cfg => content_of_tensor (ToEventSum cfg a)
  end.

(** ** One layer at a time *)

Definition upd3 (f : Z → Z) (p x y : nat) (l : Tensor3) : Tensor3 :=
  alter (alter (alter f y) x) p l.

(** [np.add.at] seen from the layer it writes to. *)
Fixpoint add_at3 (cfg : BinCfg) (layer : Tensor3) (ee : list Event)
  : Result Tensor3 :=
  match ee with
  | [] => Ok layer
  | e :: ee' =>
      match cell_of cfg e with
      | Some (p, x, y) => add_at3 cfg (upd3 (λ v, wrap8 (v + 1)) p x y layer) ee'
      | None => Raise IndexError
      end
  end.

(** The layer a bin ends as: its rows scattered into zeros. *)
Definition layer_of (cfg : BinCfg) (ee : list Event) : Result Tensor3 :=
  add_at3 cfg (zeros3 (size_C cfg) (size_H cfg) (size_W cfg)) ee.

Fixpoint layers (cfg : BinCfg) (rows : list (list Event))
  : Result (list Tensor3) :=
  match rows with
  | [] => Ok []
  | ee :: rows' =>
      l ← layer_of cfg ee;
      ls ← layers cfg rows';
      Ok (l :: ls)
  end.

(** No timestamp on a bin edge where the binners diverge.  [ToEventSum] has
    no bin for timestamp [T - 1], which [ToCountFrame] counts in its last
    bin; and when the list has negative timestamps, [ToCountFrame] counts
    them and timestamp [0] together in bin 0 while [ToEventSum] keeps them
    apart in bins 0 and 1.  At every other edge the two agree once the bins
    are summed. *)
Definition no_diverging_edge (T : nat) (tmad : list Event) : bool :=
  (T =? 0)%nat
  || forallb (λ e, negb (ev_t e =? Z.of_nat T - 1)) tmad
     && (forallb (λ e, 0 <=? ev_t e) tmad
         || forallb (λ e, negb (ev_t e =? 0)) tmad).

(** The two binners give every event the same bin. *)
Definition agree_on_bins (T : nat) (tmad : list Event) : bool :=
  forallb (λ e, bool_decide (CountFrame_bin T (ev_t e) = EventSum_bin T (ev_t e)))
    tmad.

(** Small inputs used in the examples. *)
Definition ev0 : Event := mkEvent 0 0 0 0.
Definition cfg111 (n : nat) : BinCfg := mkBinCfg n 1 1 1.
Definition cfg322 : BinCfg := mkBinCfg 3 2 2 2.
Definition tmad3 : list Event :=
  [mkEvent (-1) 0 0 0; mkEvent 1 (-1) 1 0; mkEvent 2 0 0 1].

Definition tmad_neg0 : list Event :=
  replicate 64 (mkEvent (-1) 0 0 0) ++ replicate 64 ev0.
Definition tmad_mid : list Event := [mkEvent 1 0 0 0].

Definition cfg_jitter : JitterCfg := mkJitterCfg 1 1 0 (1, 2, 2)%nat.
Definition data_1234 : Tensor5 Z :=
  mkTensor5 (1, 1, 1, 2, 2)%nat (λ _ _ _ x y, Z.of_nat (2 * x + y + 1)).

Definition cfg_crop : CropDimsCfg := mkCropDimsCfg [5] [10] [2%nat].
(** [CropCenter([3, 3], [2, 4, 4])]; lemma [cfg_center_init]. *)
Definition cfg_center : CropCenterCfg := mkCropCenterCfg (3, 3) (4, 4) (1, 1).

(** ** Cells and shapes of a layer *)

Definition get3 (l : Tensor3) (p x y : nat) : option Z :=
  l2 ← l !! p; l1 ← l2 !! x; l1 !! y.

(** A layer of shape (C, H, W). *)
Definition shaped3 (C H W : nat) (l : Tensor3) : Prop :=
  length l = C ∧
  Forall (λ l2 : Tensor2, length l2 = H ∧ Forall (λ l1 : Tensor1, length l1 = W) l2) l.

(** ** [CropDims] in closed form *)





(** ** [Repeat] *)

(** The label handed to [Repeat]: a scalar (an array without axes) or a
    vector of [C] entries. *)
Inductive Target :=
  | Scalar (v : Z)
  | Vector (l : list Z).

(** [np.expand_dims(target, 0)]: a new first axis of length 1. *)
Definition expand_dims0 (target : Target) : IntArray :=
  match target with
  | Scalar v => Arr1 [v]
  | Vector l => Arr2 [l]
  end.

(** [np.tile(a, [n, 1])]: an array of one axis is first given a leading axis
    of length 1; the rows are then repeated [n] times. *)
Definition tile_rows (n : nat) (a : IntArray) : IntArray :=
  match a with
  | Arr1 l => Arr2 (concat (replicate n [l]))
  | Arr2 rows => Arr2 (concat (replicate n rows))
  end.

(** [Repeat.__call__], for a count [n_repeat] that is not negative. *)
Definition Repeat (n_repeat : nat) (target : Target) : IntArray :=
  tile_rows n_repeat (expand_dims0 target).

(** ** [ToChannelHeightWidth] *)

(** An array of two axes: [shape[1]] and the rows. *)
Record Array2 := mkArray2 { ncols : nat; arows : list (list Z) }.

(** Every row has [shape[1]] entries. *)
Definition well_formed (a : Array2) : Prop :=
  Forall (λ r, length r = ncols a) (arows a).

(** [np.column_stack([tmad, o, o])] appends the vector [o] twice as a
    column. *)
Definition ToChannelHeightWidth (tmad : Array2) : Result Array2 :=
  let n := ncols tmad in
  if (n =? 2)%nat then
    let o := replicate (length (arows tmad)) 0 in
    Ok (mkArray2 4 (zip_with (λ r z, r ++ [z; z]) (arows tmad) o))
  else if (n =? 4)%nat then Ok tmad
  else Raise TypeError.

(** ** [Attention] *)

(** [size = [C, H, W]] gives [att_shape = [H, W]]; [n_att_events] is the
    length of the rolling window. *)
Record AttentionCfg := mkAttentionCfg
  { att_H : Z; att_W : Z; n_att_events : nat }.

Fixpoint insert_sorted (v : Z) (l : list Z) : list Z :=
  match l with
  | [] => [v]
  | w :: l' => if v <=? w then v :: l else w :: insert_sorted v l'
  end.
Definition sort_values (l : list Z) : list Z := foldr insert_sorted [] l.

(** [median().astype(int)] of the integers of a window: the middle value of
    the sorted window, or the mean of the two middle values, which the cast
    truncates towards zero. *)
Definition median_int (l : list Z) : Z :=
  let s := sort_values l in
  let m := length s in
  if Nat.odd m then nth (m / 2) s 0
  else Z.quot (nth (m / 2 - 1) s 0 + nth (m / 2) s 0) 2.

(** The window of row [i] with [min_periods=1]: the rows
    [max(0, i - n + 1) .. i]. *)
Definition window_at (n : nat) (vals : list Z) (i : nat) : list Z :=
  take (S i - (S i - n)) (drop (S i - n) vals).

(** [.rolling(window=n, min_periods=1).median().astype(int)] of a column. *)
Definition rolling_median (n : nat) (vals : list Z) : list Z :=
  map (λ i, median_int (window_at n vals i)) (seq 0 (length vals)).

(** [Attention.__call__], as a function of the rows: the frame is built
    from the rows, and [to_numpy] gives a new array.  A window of length 0 is
    refused by [rolling], since [min_periods] is 1. *)
Definition Attention (cfg : AttentionCfg) (tmad : list Event)
  : Result (list Event) :=
  if (n_att_events cfg =? 0)%nat then Raise ValueError
  else
    let centroids := zip (rolling_median (n_att_events cfg) (map ev_x tmad))
                         (rolling_median (n_att_events cfg) (map ev_y tmad)) in
    let df := zip_with (λ e c, mkEvent (ev_t e) (ev_p e)
                                 (ev_x e - (fst c - att_H cfg / 2))
                                 (ev_y e - (snd c - att_W cfg / 2)))
                tmad centroids in
    Ok (filter (λ e, (0 ≤ ev_x e ∧ ev_x e < att_W cfg)
                     ∧ (0 ≤ ev_y e ∧ ev_y e < att_H cfg)) df).

(** * Binary search *)

Section bisect.
Implicit Types (a : list Z) (x : Z) (lo hi fuel : nat).

Lemma mid_bounds lo hi : (lo < hi)%nat → (lo ≤ (lo + hi) / 2 < hi)%nat.
Proof.
  intros Hlt.
  pose proof (Nat.div_mod_eq (lo + hi) 2).
  pose proof (Nat.mod_upper_bound (lo + hi) 2). lia.
Qed.

(** More fuel than [hi - lo] changes nothing: the loop of [bisect_left]
    has stopped by then. *)
Lemma bisect_loop_fuel fuel1 fuel2 a x lo hi :
  (hi - lo ≤ fuel1)%nat → (hi - lo ≤ fuel2)%nat →
  bisect_loop fuel1 a x lo hi = bisect_loop fuel2 a x lo hi.
Proof.
  revert fuel2 lo hi.
  induction fuel1 as [|f1 IH]; intros [|f2] lo hi H1 H2; cbn [bisect_loop].
  - done.
  - destruct (Nat.ltb_spec lo hi); [lia|done].
  - destruct (Nat.ltb_spec lo hi); [lia|done].
  - destruct (Nat.ltb_spec lo hi) as [Hlt|]; [|done].
    pose proof (mid_bounds lo hi Hlt) as Hm.
    destruct (nth _ a 0 <? x); apply IH; lia.
Qed.

(** So [bisect_left] has run its loop to the end. *)
Lemma bisect_left_fuel fuel a x :
  (length a ≤ fuel)%nat →
  bisect_loop fuel a x 0 (length a) = bisect_left a x.
Proof. intros Hf. apply bisect_loop_fuel; lia. Qed.

Lemma is_sorted_nth a :
  is_sorted a = true →
  ∀ i j, (i ≤ j < length a)%nat → nth i a 0 ≤ nth j a 0.
Proof.
  induction a as [|v a IH]; simpl; intros Hs i j Hij; [lia|].
  apply andb_prop in Hs as [Hv Hs].
  destruct i as [|i], j as [|j]; try lia.
  - rewrite forallb_forall in Hv. apply Z.leb_le, Hv, nth_In. lia.
  - apply IH; [done|lia].
Qed.

Lemma is_sorted_drop a n : is_sorted a = true → is_sorted (drop n a) = true.
Proof.
  revert a. induction n as [|n IH]; intros [|v a]; simpl; try done.
  intros [_ Hs]%andb_prop. by apply IH.
Qed.

(** With [r] entries below [x] in front and the others not below, [r] is
    the count. *)
Lemma count_lt_split a x r :
  (r ≤ length a)%nat →
  (∀ i, (i < r)%nat → nth i a 0 < x) →
  (∀ i, (r ≤ i < length a)%nat → x ≤ nth i a 0) →
  count_lt a x = r.
Proof.
  unfold count_lt. revert r.
  induction a as [|v a IH]; simpl; intros r Hr Hlo Hhi; [lia|].
  destruct r as [|r].
  - rewrite filter_cons_False; [|specialize (Hhi 0%nat); simpl in Hhi; lia].
    apply (IH 0%nat); [lia|lia|].
    intros i Hi. apply (Hhi (S i)). lia.
  - rewrite filter_cons_True; [|apply (Hlo 0%nat); lia].
    simpl. f_equal. apply IH; [lia| |].
    + intros i Hi. apply (Hlo (S i)). lia.
    + intros i Hi. apply (Hhi (S i)). lia.
Qed.

Lemma bisect_loop_sorted fuel a x lo hi :
  is_sorted a = true →
  (lo ≤ hi ≤ length a)%nat → (hi - lo ≤ fuel)%nat →
  (∀ i, (i < lo)%nat → nth i a 0 < x) →
  (∀ i, (hi ≤ i < length a)%nat → x ≤ nth i a 0) →
  bisect_loop fuel a x lo hi = count_lt a x.
Proof.
  intros Hs. revert lo hi.
  induction fuel as [|fuel IH]; intros lo hi Hb Hf Hlo Hhi; cbn [bisect_loop].
  - symmetry. apply count_lt_split; [lia|done|].
    intros i Hi. apply Hhi. lia.
  - destruct (Nat.ltb_spec lo hi) as [Hlt|Hge].
    + pose proof (mid_bounds lo hi Hlt) as Hm.
      destruct (Z.ltb_spec (nth ((lo + hi) / 2) a 0) x) as [Hmid|Hmid].
      * apply IH; [lia|lia| |done].
        intros i Hi.
        pose proof (is_sorted_nth a Hs i ((lo + hi) / 2)%nat). lia.
      * apply IH; [lia|lia|done|].
        intros i Hi.
        pose proof (is_sorted_nth a Hs ((lo + hi) / 2)%nat i). lia.
    + symmetry. apply count_lt_split; [lia|done|].
      intros i Hi. apply Hhi. lia.
Qed.

(** On ascending input [find_first] is the number of entries below the
    target. *)
Lemma find_first_sorted a x :
  is_sorted a = true → find_first a x = count_lt a x.
Proof.
  intros Hs. unfold find_first, bisect_left.
  apply bisect_loop_sorted; [done|lia|lia|lia|lia].
Qed.

Lemma count_lt_app a1 a2 x :
  count_lt (a1 ++ a2) x = (count_lt a1 x + count_lt a2 x)%nat.
Proof. unfold count_lt. by rewrite filter_app, length_app. Qed.

Lemma count_lt_le a x : (count_lt a x ≤ length a)%nat.
Proof. apply length_filter. Qed.

Lemma count_lt_all a x :
  Forall (λ v, v < x) a → count_lt a x = length a.
Proof.
  unfold count_lt. induction 1 as [|v a Hv _ IH]; [done|].
  rewrite filter_cons_True by done. simpl. by rewrite IH.
Qed.

(** An ascending list is its entries below [x] followed by the others. *)
Lemma sorted_take_count a x :
  is_sorted a = true → Forall (λ v, v < x) (take (count_lt a x) a).
Proof.
  unfold count_lt.
  induction a as [|v a IH]; simpl; intros Hs; [constructor|].
  apply andb_prop in Hs as [Hv Hs].
  destruct (decide (v < x)) as [Hlt|Hge].
  - rewrite filter_cons_True by done. simpl. constructor; [done|by apply IH].
  - rewrite filter_cons_False by done.
    replace (filter (λ v0, v0 < x) a) with (@nil Z); [constructor|].
    symmetry. apply length_zero_iff_nil.
    apply (count_lt_split a x 0); [lia|lia|].
    intros i Hi. rewrite forallb_forall in Hv.
    assert (v <= nth i a 0) by (apply Z.leb_le, Hv, nth_In; lia). lia.
Qed.

Lemma sorted_drop_count a x :
  is_sorted a = true → Forall (λ v, x ≤ v) (drop (count_lt a x) a).
Proof.
  unfold count_lt.
  induction a as [|v a IH]; simpl; intros Hs; [constructor|].
  pose proof Hs as Hs'.
  apply andb_prop in Hs as [Hv Hs].
  destruct (decide (v < x)) as [Hlt|Hge].
  - rewrite filter_cons_True by done. simpl. by apply IH.
  - rewrite filter_cons_False by done.
    replace (filter (λ v0, v0 < x) a) with (@nil Z).
    + simpl. constructor; [lia|].
      rewrite forallb_forall in Hv. apply Forall_forall.
      intros w Hw. apply list_elem_of_In, Hv, Z.leb_le in Hw. lia.
    + symmetry. apply length_zero_iff_nil.
      apply (count_lt_split a x 0); [lia|lia|].
      intros i Hi. rewrite forallb_forall in Hv.
      assert (v <= nth i a 0) by (apply Z.leb_le, Hv, nth_In; lia). lia.
Qed.

(** One step of the index arithmetic of the binning loop. *)
Lemma idx_end_step a idx x :
  is_sorted a = true → (idx ≤ length a)%nat →
  Forall (λ v, v < x) (take idx a) →
  (idx + find_first (drop idx a) x)%nat = count_lt a x.
Proof.
  intros Hs Hidx Hall.
  rewrite find_first_sorted by by apply is_sorted_drop.
  trans (count_lt (take idx a ++ drop idx a) x); [|by rewrite take_drop].
  rewrite count_lt_app, (count_lt_all (take idx a)) by done.
  rewrite length_take. lia.
Qed.

Lemma count_lt_mono a x y : x ≤ y → (count_lt a x ≤ count_lt a y)%nat.
Proof.
  intros Hxy. unfold count_lt.
  induction a as [|v a IH]; [done|].
  destruct (decide (v < x)).
  - rewrite !filter_cons_True by lia. simpl. lia.
  - rewrite (filter_cons_False (λ v, v < x)) by done.
    destruct (decide (v < y)).
    + rewrite filter_cons_True by done. simpl. lia.
    + by rewrite filter_cons_False.
Qed.

End bisect.

(** * The slices of the binning loop *)

Lemma first_item_ok (l : list Z) : l ≠ [] → ∃ v, first_item l = Ok v.
Proof. destruct l; [done|]. by eexists. Qed.

Lemma last_item_ok (l : list Z) : l ≠ [] → ∃ v, last_item l = Ok v.
Proof.
  intros Hne. unfold last_item.
  destruct (last l) eqn:Hl; [by eexists|]. by apply last_None in Hl.
Qed.

Section slices.
Context (target : nat → Z) (cfg : BinCfg) (tmad : list Event).
Local Abbreviation times := (map ev_t tmad).

(** [bin_loop] scatters exactly the slices of [bin_slices]. *)
Lemma bin_loop_scatter its chunks s :
  bin_loop target cfg tmad its chunks s s =
  scatter cfg tmad chunks
    (zip (its.*1) (bin_slices target times (its.*2) s)).
Proof.
  revert chunks s.
  induction its as [|[i t] its IH]; intros chunks s; [done|].
  cbn [bin_loop fmap list_fmap fst snd bin_slices zip zip_with scatter].
  unfold slice_rows. cbn [fst snd].
  destruct (if (s <? _)%nat then _ else _) as [chunks'|err]; [|done].
  cbn. apply IH.
Qed.

Lemma enumerate_seq n :
  enumerate (seq 0 n) = (λ t, (t, t)) <$> seq 0 n.
Proof.
  unfold enumerate. rewrite length_seq.
  generalize 0%nat. induction n as [|n IH]; intros a; [done|].
  cbn. by rewrite IH.
Qed.

Lemma binning_scatter :
  tmad ≠ [] →
  binning target cfg tmad =
  scatter cfg tmad
    (zeros4 (T cfg) (size_C cfg) (size_H cfg) (size_W cfg))
    (zip (seq 0 (T cfg)) (bin_slices target times (seq 0 (T cfg)) 0)).
Proof.
  intros Hne. unfold binning.
  assert (Hne' : times ≠ []) by (by destruct tmad).
  destruct (first_item_ok _ Hne') as [t0 ->].
  destruct (last_item_ok _ Hne') as [t1 ->].
  cbn [mbind Result_bind]. rewrite bin_loop_scatter, enumerate_seq.
  rewrite length_seq.
  rewrite <-!list_fmap_compose. unfold compose. cbn [fst snd].
  rewrite !list_fmap_id. done.
Qed.

(** Consecutive slices: each starts where the previous one ended. *)
Lemma bin_slices_bounds ts idx i s e :
  bin_slices target times ts idx !! i = Some (s, e) →
  (idx ≤ s ≤ e)%nat.
Proof.
  revert idx i. induction ts as [|t ts IH]; intros idx i; [done|].
  destruct i as [|i]; cbn.
  - intros [= <- <-]. lia.
  - intros H%IH. lia.
Qed.

Lemma bin_slices_ordered ts idx i j s e s' e' :
  (i < j)%nat →
  bin_slices target times ts idx !! i = Some (s, e) →
  bin_slices target times ts idx !! j = Some (s', e') →
  (e ≤ s')%nat.
Proof.
  revert idx i j. induction ts as [|t ts IH]; intros idx i j Hij; [done|].
  destruct j as [|j]; [lia|]. destruct i as [|i]; cbn.
  - intros [= <- <-] H%bin_slices_bounds. lia.
  - apply IH. lia.
Qed.

(** A position lies in at most one slice. *)
Lemma in_bin_unique ts idx i j k :
  in_bin (bin_slices target times ts idx) i k →
  in_bin (bin_slices target times ts idx) j k →
  i = j.
Proof.
  intros (s & e & Hi & Hk) (s' & e' & Hj & Hk').
  destruct (Nat.lt_trichotomy i j) as [Hlt|[->|Hlt]]; [|done|].
  - pose proof (bin_slices_ordered _ _ _ _ _ _ _ _ Hlt Hi Hj). lia.
  - pose proof (bin_slices_ordered _ _ _ _ _ _ _ _ Hlt Hj Hi). lia.
Qed.

Lemma length_bin_slices ts idx :
  length (bin_slices target times ts idx) = length ts.
Proof.
  revert idx. induction ts as [|t ts IH]; intros idx; [done|].
  cbn. by rewrite IH.
Qed.

Lemma bin_slices_sorted n a :
  is_sorted times = true →
  (∀ t, target t ≤ target (S t)) →
  bin_slices target times (seq a n) (fst (slice_of target times a)) =
  slice_of target times <$> seq a n.
Proof.
  intros Hs Hmono. revert a.
  induction n as [|n IH]; intros a; [done|].
  cbn [seq bin_slices fmap list_fmap].
  assert (He : (fst (slice_of target times a)
                + find_first (drop (fst (slice_of target times a)) times) (target a))%nat
               = count_lt times (target a)).
  { apply idx_end_step; [done| |].
    - destruct a; cbn; [lia|apply count_lt_le].
    - destruct a as [|a]; cbn; [constructor|].
      eapply Forall_impl; [by apply sorted_take_count|].
      cbn. intros v Hv. specialize (Hmono a). lia. }
  rewrite He. f_equal. apply (IH (S a)).
Qed.
End slices.

(** * Cells and sums of a tensor under an update *)

Section tensors.
Lemma sumw_alter {A} (g : A → Z) (f : A → A) (l : list A) i a :
  l !! i = Some a →
  sumw g (alter f i l) = sumw g l - g a + g (f a).
Proof.
  unfold sumw.
  revert i. induction l as [|b l IH]; intros [|i] Hi; try done; cbn in *.
  - injection Hi as ->. lia.
  - rewrite (IH i Hi). lia.
Qed.

Lemma sumw_replicate_0 {A} (g : A → Z) n a :
  g a = 0 → sumw g (replicate n a) = 0.
Proof.
  intros Ha. unfold sumw. induction n as [|n IH]; cbn in *; [done|]. lia.
Qed.

Lemma sum4_zeros n C H W : sum4 (zeros4 n C H W) = 0.
Proof.
  unfold sum4, zeros4, zeros3.
  repeat (apply sumw_replicate_0). done.
Qed.

Lemma get4_zeros n C H W i p x y :
  (i < n)%nat → (p < C)%nat → (x < H)%nat → (y < W)%nat →
  get4 (zeros4 n C H W) i p x y = Some 0.
Proof.
  intros. unfold get4, zeros4, zeros3.
  rewrite lookup_replicate_2 by done. cbn.
  rewrite lookup_replicate_2 by done. cbn.
  rewrite lookup_replicate_2 by done. cbn.
  by rewrite lookup_replicate_2.
Qed.

Lemma get4_upd4_eq f i p x y c :
  get4 (upd4 f i p x y c) i p x y = f <$> get4 c i p x y.
Proof.
  unfold get4, upd4. rewrite list_lookup_alter_eq.
  destruct (c !! i) as [l3|]; [cbn|done].
  rewrite list_lookup_alter_eq.
  destruct (l3 !! p) as [l2|]; [cbn|done].
  rewrite list_lookup_alter_eq.
  destruct (l2 !! x) as [l1|]; [cbn|done].
  by rewrite list_lookup_alter_eq.
Qed.

Lemma get4_upd4_ne f i p x y c i' p' x' y' :
  (i, p, x, y) ≠ (i', p', x', y') →
  get4 (upd4 f i p x y c) i' p' x' y' = get4 c i' p' x' y'.
Proof.
  intros Hne. unfold get4, upd4.
  destruct (decide (i = i')) as [<-|]; [|by rewrite list_lookup_alter_ne].
  rewrite list_lookup_alter_eq.
  destruct (c !! i) as [l3|]; [cbn|done].
  destruct (decide (p = p')) as [<-|]; [|by rewrite list_lookup_alter_ne].
  rewrite list_lookup_alter_eq.
  destruct (l3 !! p) as [l2|]; [cbn|done].
  destruct (decide (x = x')) as [<-|]; [|by rewrite list_lookup_alter_ne].
  rewrite list_lookup_alter_eq.
  destruct (l2 !! x) as [l1|]; [cbn|done].
  destruct (decide (y = y')) as [<-|]; [done|by rewrite list_lookup_alter_ne].
Qed.

Lemma sum4_upd4 f i p x y c v :
  get4 c i p x y = Some v →
  sum4 (upd4 f i p x y c) = sum4 c - v + f v.
Proof.
  unfold get4, upd4, sum4, sum3, sum2, sum1. intros Hg.
  destruct (c !! i) as [l3|] eqn:H3; [cbn in Hg|done].
  destruct (l3 !! p) as [l2|] eqn:H2; [cbn in Hg|done].
  destruct (l2 !! x) as [l1|] eqn:H1; [cbn in Hg|done].
  rewrite (sumw_alter _ _ _ _ _ H3), (sumw_alter _ _ _ _ _ H2),
    (sumw_alter _ _ _ _ _ H1), (sumw_alter _ _ _ _ _ Hg).
  unfold id. lia.
Qed.

Lemma wrap8_small v : -128 ≤ v ≤ 127 → wrap8 v = v.
Proof. intros Hv. unfold wrap8. rewrite Z.mod_small; lia. Qed.

Lemma norm_index_lt n k m : norm_index n k = Some m → (m < n)%nat.
Proof.
  unfold norm_index. intros Hn.
  destruct ((0 <=? k) && (k <? Z.of_nat n)) eqn:H1.
  - injection Hn as <-. apply andb_prop in H1 as [?%Z.leb_le ?%Z.ltb_lt]. lia.
  - destruct ((- Z.of_nat n <=? k) && (k <? 0)) eqn:H2; [|done].
    injection Hn as <-. apply andb_prop in H2 as [?%Z.leb_le ?%Z.ltb_lt]. lia.
Qed.

Lemma cell_of_lt cfg e p x y :
  cell_of cfg e = Some (p, x, y) →
  (p < size_C cfg)%nat ∧ (x < size_H cfg)%nat ∧ (y < size_W cfg)%nat.
Proof.
  unfold cell_of. intros Hc.
  destruct (norm_index (size_C cfg) (ev_p e)) as [p'|] eqn:Hp; [cbn in Hc|done].
  destruct (norm_index (size_H cfg) (ev_x e)) as [x'|] eqn:Hx; [cbn in Hc|done].
  destruct (norm_index (size_W cfg) (ev_y e)) as [y'|] eqn:Hy; [cbn in Hc|done].
  injection Hc as <- <- <-.
  split_and!; eapply norm_index_lt; eassumption.
Qed.
End tensors.

(** * What [np.add.at] and the loop do to the sum *)

Section scatter.
Context (cfg : BinCfg) (n : nat).

Lemma add_at_sum ee : ∀ chunks i,
  (i < n)%nat → full cfg n chunks →
  Forall (λ e, is_Some (cell_of cfg e)) ee →
  (∀ p x y v, get4 chunks i p x y = Some v →
              0 ≤ v ∧ v + Z.of_nat (cell_count cfg ee (Some (p, x, y))) ≤ 127) →
  ∃ chunks', add_at cfg chunks i ee = Ok chunks' ∧ full cfg n chunks' ∧
             sum4 chunks' = sum4 chunks + Z.of_nat (length ee) ∧
             (∀ j p x y, j ≠ i → get4 chunks' j p x y = get4 chunks j p x y).
Proof.
  induction ee as [|e ee IH]; intros chunks i Hi Hfull Hvalid Hcells.
  { exists chunks. cbn. split_and!; [done|done|lia|done]. }
  apply Forall_cons in Hvalid as [[[[p x] y] Hc] Hvalid].
  cbn [add_at]. rewrite Hc.
  destruct (cell_of_lt _ _ _ _ _ Hc) as (Hp & Hx & Hy).
  destruct (Hfull i p x y) as [v Hv]; [done..|].
  destruct (Hcells p x y v Hv) as [Hv0 Hv127].
  assert (Hcnt : cell_count cfg (e :: ee) (Some (p, x, y))
                 = S (cell_count cfg ee (Some (p, x, y)))).
  { unfold cell_count. by rewrite filter_cons_True. }
  destruct (IH (upd4 (λ v, wrap8 (v + 1)) i p x y chunks) i)
    as (chunks' & Hok & Hfull' & Hsum & Hother); [done| |done| |].
  - intros i' p' x' y' ? ? ? ?.
    destruct (decide ((i, p, x, y) = (i', p', x', y'))) as [[= <- <- <- <-]|Hne].
    + rewrite get4_upd4_eq, Hv. by eexists.
    + rewrite get4_upd4_ne by done. by apply Hfull.
  - intros p' x' y' v'.
    destruct (decide ((i, p, x, y) = (i, p', x', y'))) as [[= <- <- <-]|Hne].
    + rewrite get4_upd4_eq, Hv. cbn. intros [= <-].
      rewrite wrap8_small by lia. lia.
    + rewrite get4_upd4_ne by done. intros Hv'.
      destruct (Hcells _ _ _ _ Hv') as [? ?].
      assert (cell_count cfg (e :: ee) (Some (p', x', y'))
              = cell_count cfg ee (Some (p', x', y'))); [|lia].
      unfold cell_count. rewrite filter_cons_False; [done|].
      rewrite Hc. congruence.
  - exists chunks'. split_and!; [done|done| |].
    + rewrite Hsum, (sum4_upd4 _ _ _ _ _ _ _ Hv).
      rewrite wrap8_small by lia. cbn [length]. lia.
    + intros j p' x' y' Hj. rewrite Hother by done.
      apply get4_upd4_ne. congruence.
Qed.

Lemma sum_list_cons (x : nat) l : sum_list (x :: l) = (x + sum_list l)%nat.
Proof. done. Qed.

Lemma slice_rows_empty (tmad : list Event) se :
  (fst se <? snd se)%nat = false → slice_rows tmad se = [].
Proof.
  intros H%Nat.ltb_ge. unfold slice_rows.
  by replace (snd se - fst se)%nat with 0%nat by lia.
Qed.

Lemma scatter_sum (tmad : list Event) items : ∀ chunks,
  NoDup (items.*1) → Forall (λ it, (fst it < n)%nat) items →
  full cfg n chunks →
  Forall (λ it, Forall (λ e, is_Some (cell_of cfg e)) (slice_rows tmad (snd it))
                ∧ ∀ c, (cell_count cfg (slice_rows tmad (snd it)) c ≤ 127)%nat)
    items →
  (∀ it p x y v, it ∈ items → get4 chunks (fst it) p x y = Some v → v = 0) →
  ∃ chunks', scatter cfg tmad chunks items = Ok chunks' ∧
    sum4 chunks' = sum4 chunks
      + Z.of_nat (sum_list ((λ it, length (slice_rows tmad (snd it))) <$> items)).
Proof.
  induction items as [|[i se] items IH];
    intros chunks Hnd Hlt Hfull Hok Hzero.
  { exists chunks. cbn. split; [done|lia]. }
  cbn in Hnd. apply NoDup_cons in Hnd as [Hi Hnd].
  apply Forall_cons in Hlt as [Hin Hlt].
  apply Forall_cons in Hok as [[Hvalid Hfit] Hok].
  cbn [fst snd] in *.
  destruct (add_at_sum (slice_rows tmad se) chunks i)
    as (chunks1 & Hadd & Hfull1 & Hsum1 & Hother); [done..| |].
  { intros p x y v Hv.
    rewrite (Hzero (i, se) p x y v); [|left|done].
    specialize (Hfit (Some (p, x, y))). lia. }
  destruct (IH chunks1) as (chunks' & Hsc & Hsum); [done..| |].
  { intros it p x y v Hit. rewrite Hother.
    - apply Hzero. by right.
    - intros Heq. apply Hi. rewrite <-Heq. by apply list_elem_of_fmap_2. }
  exists chunks'. cbn [scatter fst snd].
  assert (Hstep : (if (se.1 <? se.2)%nat
                   then add_at cfg chunks i (slice_rows tmad se)
                   else Ok chunks) = Ok chunks1).
  { destruct (se.1 <? se.2)%nat eqn:Hse; [done|].
    rewrite slice_rows_empty in Hadd by done. done. }
  rewrite Hstep. cbn [mbind Result_bind].
  split; [done|]. rewrite Hsum, Hsum1, fmap_cons, sum_list_cons.
  cbn [snd]. lia.
Qed.
End scatter.

(** * The sum of a binned tensor *)

Section binned_sum.
Context (cfg : BinCfg) (tmad : list Event).
Local Abbreviation times := (map ev_t tmad).

Lemma count_lt_map x :
  count_lt times x = length (filter (λ e, ev_t e < x) tmad).
Proof.
  unfold count_lt. induction tmad as [|e tm IH]; [done|]. cbn [map].
  destruct (decide (ev_t e < x)).
  - rewrite !filter_cons_True by done. cbn. by rewrite IH.
  - by rewrite !filter_cons_False.
Qed.

Lemma cell_count_bound ee :
  (∀ e, e ∈ ee → (cell_count cfg ee (cell_of cfg e) ≤ 127)%nat) →
  ∀ c, (cell_count cfg ee c ≤ 127)%nat.
Proof.
  intros Hb c. unfold cell_count in *.
  destruct (filter (λ e, cell_of cfg e = c) ee) as [|e0 l] eqn:Hf; [cbn; lia|].
  assert (He : e0 ∈ filter (λ e, cell_of cfg e = c) ee) by (rewrite Hf; left).
  apply list_elem_of_filter in He as [<- He].
  specialize (Hb e0 He). by rewrite Hf in Hb.
Qed.

(** The bool checks on the slices, as facts about the items scattered. *)
Lemma checks_items (ts : list nat) slices :
  valid_cells cfg tmad slices = true →
  fits_int8 cfg tmad slices = true →
  Forall (λ it : nat * (nat * nat),
            Forall (λ e, is_Some (cell_of cfg e)) (slice_rows tmad (snd it))
            ∧ ∀ c, (cell_count cfg (slice_rows tmad (snd it)) c ≤ 127)%nat)
    (zip ts slices).
Proof.
  unfold valid_cells, fits_int8. rewrite !forallb_forall.
  intros Hv Hf. apply Forall_forall. intros [i se] Hit.
  apply elem_of_zip_r, list_elem_of_In in Hit. cbn [snd].
  specialize (Hv se Hit). specialize (Hf se Hit). cbn in Hf.
  rewrite forallb_forall in Hv, Hf. split.
  - apply Forall_forall. intros e He%list_elem_of_In.
    by apply Hv, bool_decide_eq_true in He.
  - apply cell_count_bound. intros e He%list_elem_of_In.
    by apply Hf, Nat.leb_le in He.
Qed.

Lemma get4_zeros_inv n C H W i p x y v :
  get4 (zeros4 n C H W) i p x y = Some v → v = 0.
Proof.
  unfold get4, zeros4, zeros3. intros Hg.
  destruct (replicate n _ !! i) as [l3|] eqn:H3; [cbn in Hg|done].
  apply lookup_replicate in H3 as [-> _].
  destruct (replicate C _ !! p) as [l2|] eqn:H2; [cbn in Hg|done].
  apply lookup_replicate in H2 as [-> _].
  destruct (replicate H _ !! x) as [l1|] eqn:H1; [cbn in Hg|done].
  apply lookup_replicate in H1 as [-> _].
  by apply lookup_replicate in Hg as [-> _].
Qed.

Context (target : nat → Z).
Hypothesis sorted : is_sorted times = true.
Hypothesis mono : ∀ t, target t ≤ target (S t).

Lemma slice_of_le t :
  (fst (slice_of target times t) ≤ snd (slice_of target times t)
   ≤ length tmad)%nat.
Proof.
  unfold slice_of. cbn [fst snd]. split.
  - destruct t as [|t]; [lia|]. apply count_lt_mono, mono.
  - etrans; [apply count_lt_le|]. by rewrite length_map.
Qed.

Lemma length_slice_rows t :
  length (slice_rows tmad (slice_of target times t))
  = (snd (slice_of target times t) - fst (slice_of target times t))%nat.
Proof.
  unfold slice_rows. rewrite length_take, length_drop.
  pose proof (slice_of_le t). lia.
Qed.

(** The slice lengths add up to the last cut. *)
Lemma slice_lengths_sum n a :
  (sum_list ((λ se, length (slice_rows tmad se))
             <$> (slice_of target times <$> seq a n))
   + fst (slice_of target times a))%nat
  = match n with
    | O => fst (slice_of target times a)
    | S n' => count_lt times (target (a + n'))
    end.
Proof.
  revert a. induction n as [|n IH]; intros a; [done|].
  cbn [seq]. rewrite !fmap_cons, sum_list_cons, length_slice_rows.
  specialize (IH (S a)). pose proof (slice_of_le a) as Hle.
  change (fst (slice_of target times (S a)))
    with (snd (slice_of target times a)) in IH.
  destruct n as [|n].
  - cbn in *. replace (a + 0)%nat with a by lia. lia.
  - replace (a + S n)%nat with (S a + n)%nat by lia. lia.
Qed.

(** The tensor [binning] returns, and the sum of its cells. *)
Lemma binning_sum :
  tmad ≠ [] →
  valid_cells cfg tmad (bin_slices target times (seq 0 (T cfg)) 0) = true →
  fits_int8 cfg tmad (bin_slices target times (seq 0 (T cfg)) 0) = true →
  ∃ out, binning target cfg tmad = Ok out ∧
    sum4 out = match T cfg with
               | O => 0
               | S n' => Z.of_nat (count_lt times (target n'))
               end.
Proof.
  intros Hne Hvalid Hfit. rewrite binning_scatter by done.
  set (slices := bin_slices target times (seq 0 (T cfg)) 0) in *.
  assert (Hlen : length slices = T cfg).
  { unfold slices. by rewrite length_bin_slices, length_seq. }
  destruct (scatter_sum cfg (T cfg) tmad (zip (seq 0 (T cfg)) slices)
              (zeros4 (T cfg) (size_C cfg) (size_H cfg) (size_W cfg)))
    as (out & Hout & Hsum).
  - rewrite fst_zip by (rewrite length_seq; lia). apply NoDup_seq.
  - apply Forall_forall. intros [i se] Hit%elem_of_zip_l.
    apply elem_of_seq in Hit. cbn. lia.
  - intros i p x y ? ? ? ?. rewrite get4_zeros by done. by eexists.
  - by apply checks_items.
  - intros it p x y v _. apply get4_zeros_inv.
  - exists out. split; [done|]. rewrite Hsum, sum4_zeros.
    assert (Hcomp : ∀ items : list (nat * (nat * nat)),
               (λ it, length (slice_rows tmad (snd it))) <$> items
               = (λ se, length (slice_rows tmad se)) <$> items.*2).
    { intros items. by rewrite <-list_fmap_compose. }
    rewrite Hcomp, snd_zip by (rewrite length_seq; lia).
    unfold slices.
    change 0%nat with (fst (slice_of target times 0)) at 2.
    rewrite bin_slices_sorted by done.
    pose proof (slice_lengths_sum (T cfg) 0) as Ht. cbn [fst slice_of] in Ht.
    rewrite Nat.add_0_r in Ht. rewrite Ht. by destruct (T cfg).
Qed.
End binned_sum.

(** * Bins by timestamp *)

Section bins.
Context (cfg : BinCfg) (tmad : list Event).
Local Abbreviation times := (map ev_t tmad).
Hypothesis sorted : is_sorted times = true.



End bins.

(** * ToCountFrame: the sum of the output *)

Lemma CountFrame_binned_count (T : nat) (tmad : list Event) :
  match T with
  | O => 0%nat
  | S n' => count_lt (map ev_t tmad) (Z.of_nat n' + 1)
  end
  = length (filter (λ e, is_Some (CountFrame_bin T (ev_t e))) tmad).
Proof.
  destruct T as [|n'].
  - induction tmad as [|e tm IH]; [done|].
    rewrite filter_cons_False; [done|].
    unfold CountFrame_bin. rewrite andb_false_r. by intros [? ?].
  - rewrite count_lt_map. f_equal. apply list_filter_iff. intros e.
    unfold CountFrame_bin.
    destruct (Z.ltb_spec (ev_t e) (Z.of_nat (S n'))); cbn.
    + split; [by eexists|lia].
    + split; [lia|by intros [? ?]].
Qed.

Lemma CountFrame_bin_is_Some (T : nat) (t : Z) :
  is_Some (CountFrame_bin T t) ↔ t < Z.of_nat T ∧ (0 < T)%nat.
Proof.
  unfold CountFrame_bin.
  destruct (Z.ltb_spec t (Z.of_nat T)), (Nat.ltb_spec 0 T); cbn.
  - split; [done|by eexists].
  - split; [by intros [? ?]|lia].
  - split; [by intros [? ?]|lia].
  - split; [by intros [? ?]|lia].
Qed.

(** C1 fails on the code: [chunks] is allocated as [int8], so 128 events of
    one cell and one time bin wrap the count to -128.  On the non-empty,
    sorted list of 128 events [(0, 0, 0, 0)], all with timestamp inside
    [0, T) for [T = 1], the output sums to -128 while 128 events were binned;
    with 127 such events the sum is still the count. *)
Theorem ToCountFrame_int8_wrap :
  let tmad := replicate 128 ev0 in
  tmad ≠ [] ∧ is_sorted (map ev_t tmad) = true ∧
  ToCountFrame (cfg111 1) tmad = Ok [[[[-128]]]] ∧
  sum4 [[[[-128]]]] = -128 ∧
  length (filter (λ e, 0 ≤ ev_t e < 1) tmad) = 128%nat ∧
  length (filter (λ e, is_Some (CountFrame_bin 1 (ev_t e))) tmad) = 128%nat ∧
  sum4 [[[[-128]]]] ≠ Z.of_nat (length (filter (λ e, 0 ≤ ev_t e < 1) tmad)) ∧
  ToCountFrame (cfg111 1) (replicate 127 ev0) = Ok [[[[127]]]].
Proof. by vm_compute. Qed.

(** X25: for every non-empty, timestamp-sorted event list whose
    binned events address cells of the frame and in which no cell of a bin
    receives more than 127 events, [ToCountFrame] returns a tensor whose
    cells sum to the number of events that were given a bin (those with
    timestamp below [T]; timestamps below 1, negative ones included, go to
    bin 0), and no event position lies in more than one bin. *)
Theorem ToCountFrame_sum (cfg : BinCfg) (tmad : list Event) :
  tmad ≠ [] →
  is_sorted (map ev_t tmad) = true →
  valid_cells cfg tmad (CountFrame_slices cfg tmad) = true →
  fits_int8 cfg tmad (CountFrame_slices cfg tmad) = true →
  ∃ out, ToCountFrame cfg tmad = Ok out ∧
    sum4 out
    = Z.of_nat (length (filter (λ e, is_Some (CountFrame_bin (T cfg) (ev_t e)))
                          tmad)) ∧
    ∀ i j k, in_bin (CountFrame_slices cfg tmad) i k →
             in_bin (CountFrame_slices cfg tmad) j k → i = j.
Proof.
  intros Hne Hs Hvalid Hfit.
  destruct (binning_sum cfg tmad (λ t, Z.of_nat t + 1)) as (out & Hout & Hsum);
    [done|intros; lia|done..|].
  exists out. split; [done|]. split.
  - rewrite Hsum, <-CountFrame_binned_count. by destruct (T cfg).
  - intros i j k. apply in_bin_unique.
Qed.

Lemma ToCountFrame_sum_witness :
  tmad3 ≠ [] ∧
  is_sorted (map ev_t tmad3) = true ∧
  valid_cells cfg322 tmad3 (CountFrame_slices cfg322 tmad3) = true ∧
  fits_int8 cfg322 tmad3 (CountFrame_slices cfg322 tmad3) = true ∧
  ∃ out, ToCountFrame cfg322 tmad3 = Ok out ∧
    sum4 out
    = Z.of_nat (length (filter (λ e, is_Some (CountFrame_bin (T cfg322) (ev_t e)))
                          tmad3)) ∧
    ∀ i j k, in_bin (CountFrame_slices cfg322 tmad3) i k →
             in_bin (CountFrame_slices cfg322 tmad3) j k → i = j.
Proof.
  split; [discriminate|].
  split; [reflexivity|]. split; [reflexivity|]. split; [reflexivity|].
  apply (ToCountFrame_sum cfg322 tmad3);
    [discriminate|reflexivity|reflexivity|reflexivity].
Defined.

(** * ToEventSum against ToCountFrame *)

Lemma count_lt_ext (l : list Z) (a b : Z) :
  Forall (λ v, v < a ↔ v < b) l → count_lt l a = count_lt l b.
Proof.
  unfold count_lt. induction 1 as [|v l Hv _ IH]; [done|].
  destruct (decide (v < a)).
  - rewrite !filter_cons_True by tauto. cbn. by rewrite IH.
  - rewrite !filter_cons_False by tauto. done.
Qed.

Section layers.
Context (cfg : BinCfg).

Lemma upd4_layer f i p x y (chunks : Tensor4) layer :
  chunks !! i = Some layer →
  upd4 f i p x y chunks = <[i := upd3 f p x y layer]> chunks.
Proof.
  intros Hi. unfold upd4, upd3. apply list_eq. intros j.
  destruct (decide (i = j)) as [<-|Hne].
  - rewrite list_lookup_alter_eq, Hi, list_lookup_insert_eq; [done|].
    by eapply lookup_lt_Some.
  - by rewrite list_lookup_alter_ne, list_lookup_insert_ne.
Qed.

(** [np.add.at] with first index [i] works on layer [i] alone. *)
Lemma add_at_layer ee : ∀ (chunks : Tensor4) i layer,
  chunks !! i = Some layer →
  add_at cfg chunks i ee = (λ l, <[i := l]> chunks) <$> add_at3 cfg layer ee.
Proof.
  induction ee as [|e ee IH]; intros chunks i layer Hi; cbn.
  { by rewrite list_insert_id. }
  destruct (cell_of cfg e) as [[[p x] y]|]; [|done].
  rewrite (upd4_layer _ _ _ _ _ _ _ Hi).
  rewrite (IH _ i (upd3 (λ v, wrap8 (v + 1)) p x y layer)).
  - destruct (add_at3 cfg _ ee); [|done]. cbn.
    by rewrite list_insert_insert_eq.
  - apply list_lookup_insert_eq. by eapply lookup_lt_Some.
Qed.

(** The loop fills the layers one after the other, each from zeros. *)
Lemma scatter_layers (tmad : list Event) slices : ∀ (done : Tensor4),
  scatter cfg tmad
    (done ++ replicate (length slices)
               (zeros3 (size_C cfg) (size_H cfg) (size_W cfg)))
    (zip (seq (length done) (length slices)) slices)
  = (done ++.) <$> layers cfg (slice_rows tmad <$> slices).
Proof.
  induction slices as [|se slices IH]; intros done.
  { cbn. by rewrite app_nil_r. }
  cbn [length seq zip zip_with scatter fmap list_fmap layers replicate].
  set (z3 := zeros3 _ _ _).
  assert (Hstep : (if (se.1 <? se.2)%nat
                   then add_at cfg (done ++ z3 :: replicate (length slices) z3)
                          (length done) (slice_rows tmad se)
                   else Ok (done ++ z3 :: replicate (length slices) z3))
                  = add_at cfg (done ++ z3 :: replicate (length slices) z3)
                      (length done) (slice_rows tmad se)).
  { destruct (se.1 <? se.2)%nat eqn:Hse; [done|].
    by rewrite (slice_rows_empty tmad se Hse). }
  rewrite Hstep, (add_at_layer _ _ _ z3) by (by rewrite list_lookup_middle).
  unfold layer_of. fold z3.
  destruct (add_at3 cfg z3 (slice_rows tmad se)) as [l|e]; [|done].
  cbn [fmap Result_fmap mbind Result_bind].
  rewrite insert_app_r_alt, Nat.sub_diag by lia. cbn [insert list_insert].
  specialize (IH (done ++ [l])).
  rewrite length_app, Nat.add_1_r, <-app_assoc in IH. cbn [app] in IH.
  fold z3 in IH. rewrite IH. destruct (layers cfg _) as [ls|e]; [|done].
  cbn. by rewrite <-app_assoc.
Qed.

(** [binning] is the list of the layers of its slices. *)
Lemma binning_layers target (tmad : list Event) :
  tmad ≠ [] →
  binning target cfg tmad
  = layers cfg (slice_rows tmad
                <$> bin_slices target (map ev_t tmad) (seq 0 (T cfg)) 0).
Proof.
  intros Hne. rewrite binning_scatter by done.
  pose proof (scatter_layers tmad
                (bin_slices target (map ev_t tmad) (seq 0 (T cfg)) 0) []) as Hs.
  rewrite length_bin_slices, length_seq in Hs. cbn [app length] in Hs.
  unfold zeros4. rewrite Hs. by destruct (layers cfg _).
Qed.

Lemma add_at3_raises layer ee e :
  add_at3 cfg layer ee = Raise e → e = IndexError.
Proof.
  revert layer. induction ee as [|ev ee IH]; intros layer; cbn; [done|].
  destruct (cell_of cfg ev) as [[[p x] y]|]; [apply IH|by intros [= <-]].
Qed.

Lemma layers_raises rows e : layers cfg rows = Raise e → e = IndexError.
Proof.
  induction rows as [|ee rows IH]; cbn; [done|].
  destruct (layer_of cfg ee) as [l|e'] eqn:Hl; cbn.
  - destruct (layers cfg rows) as [ls|e'']; cbn; [done|].
    intros [= <-]. by apply IH.
  - intros [= <-]. by eapply add_at3_raises.
Qed.

Lemma zip_with_left_comm {A} (f : A → A → A) :
  (∀ a b c, f a (f b c) = f b (f a c)) →
  ∀ l1 l2 l3, zip_with f l1 (zip_with f l2 l3) = zip_with f l2 (zip_with f l1 l3).
Proof.
  intros Hf l1. induction l1 as [|a l1 IH]; intros [|b l2] [|c l3]; cbn;
    try done.
  by rewrite Hf, IH.
Qed.

Lemma add3_left_comm (a b c : Tensor3) : add3 a (add3 b c) = add3 b (add3 a c).
Proof.
  unfold add3. repeat apply zip_with_left_comm. intros; lia.
Qed.

(** The sum over the time axis does not depend on the order of the bins. *)
Lemma layers_permutation rows1 rows2 :
  rows1 ≡ₚ rows2 →
  sum_axis0 cfg <$> layers cfg rows1 = sum_axis0 cfg <$> layers cfg rows2.
Proof.
  unfold sum_axis0.
  induction 1 as [|ee rows1 rows2 _ IH|ee1 ee2 rows|rows1 rows2 rows3 _ IH1 _ IH2].
  - done.
  - cbn [layers]. destruct (layer_of cfg ee) as [l|e]; [|done]. cbn.
    destruct (layers cfg rows1) as [ls1|e1], (layers cfg rows2) as [ls2|e2];
      cbn in *; congruence.
  - cbn [layers].
    destruct (layer_of cfg ee1) as [l1|e1] eqn:H1,
             (layer_of cfg ee2) as [l2|e2] eqn:H2; cbn.
    + destruct (layers cfg rows) as [ls|e]; cbn; [|done].
      by rewrite add3_left_comm.
    + destruct (layers cfg rows) as [ls|e] eqn:Hl; cbn; [done|].
      apply add_at3_raises in H2 as ->. by apply layers_raises in Hl as ->.
    + destruct (layers cfg rows) as [ls|e] eqn:Hl; cbn; [done|].
      apply add_at3_raises in H1 as ->. by apply layers_raises in Hl as ->.
    + apply add_at3_raises in H1 as ->. by apply add_at3_raises in H2 as ->.
  - by rewrite IH1.
Qed.
End layers.

(** ** The bins of the two binners, as rows *)

Section rows.
Context (tmad : list Event).
Local Abbreviation times := (map ev_t tmad).
Local Abbreviation CF := (slice_of (λ t, Z.of_nat t + 1) times).
Local Abbreviation ES := (slice_of (λ t, Z.of_nat t) times).

Lemma slice_of_shift i : CF (S i) = ES (S (S i)).
Proof. unfold slice_of. do 2 f_equal; f_equal; lia. Qed.

Lemma slice_rows_same s : slice_rows tmad (s, s) = [].
Proof. unfold slice_rows. cbn. by rewrite Nat.sub_diag. Qed.

Lemma count_lt_none (l : list Z) x : Forall (λ v, x ≤ v) l → count_lt l x = 0%nat.
Proof.
  unfold count_lt. induction 1 as [|v l Hv _ IH]; [done|].
  rewrite filter_cons_False by lia. done.
Qed.

Lemma forallb_times (f : Z → bool) (P : Z → Prop) :
  (∀ v, f v = true → P v) →
  forallb (λ e, f (ev_t e)) tmad = true → Forall P times.
Proof.
  intros HfP Hf. rewrite forallb_forall in Hf.
  apply Forall_fmap, Forall_forall. intros e He%list_elem_of_In.
  by apply HfP, Hf.
Qed.

(** Without a timestamp on a diverging edge the bins of [ToEventSum] are
    the bins of [ToCountFrame] in another order: an empty bin moves from the
    end to the front. *)
Lemma rows_permutation (T : nat) :
  no_diverging_edge T tmad = true →
  slice_rows tmad <$> (ES <$> seq 0 T) ≡ₚ slice_rows tmad <$> (CF <$> seq 0 T).
Proof.
  intros Hno. destruct T as [|n]; [done|].
  unfold no_diverging_edge in Hno. cbn [Nat.eqb orb] in Hno.
  apply andb_prop in Hno as [Hlast Hzero].
  assert (Hn : count_lt times (Z.of_nat n) = count_lt times (Z.of_nat n + 1)).
  { apply count_lt_ext.
    eapply Forall_impl;
      [apply (forallb_times (λ v, negb (v =? Z.of_nat (S n) - 1))
                (λ v, v ≠ Z.of_nat n)); [|exact Hlast]|].
    - intros v Hv%negb_true_iff%Z.eqb_neq. lia.
    - cbn. intros v Hv. lia. }
  assert (H0 : count_lt times 0 = 0%nat ∨ count_lt times 0 = count_lt times 1).
  { apply orb_prop in Hzero as [Hpos|Hnz].
    - left. apply count_lt_none.
      apply (forallb_times (λ v, 0 <=? v)); [|done]. intros v. apply Z.leb_le.
    - right. apply count_lt_ext.
      eapply Forall_impl;
        [apply (forallb_times (λ v, negb (v =? 0)) (λ v, v ≠ 0)); [|exact Hnz]|].
      + by intros v Hv%negb_true_iff%Z.eqb_neq.
      + cbn. intros v Hv. lia. }
  destruct n as [|m].
  { cbn [seq fmap list_fmap]. unfold slice_of. cbn [fst snd Z.of_nat] in *.
    by rewrite Hn. }
  change (seq 0 (S (S m))) with (0%nat :: seq 1 (S m)).
  rewrite seq_S at 2. cbn [seq].
  rewrite <-(fmap_S_seq 1 m), <-(fmap_S_seq 0 m).
  rewrite !fmap_cons, !fmap_app, <-!list_fmap_compose.
  rewrite (list_fmap_ext (slice_rows tmad ∘ ES ∘ S ∘ S)
             (slice_rows tmad ∘ CF ∘ S) (seq 0 m))
    by (intros i t _; unfold compose; by rewrite slice_of_shift).
  set (M := (slice_rows tmad ∘ CF ∘ S) <$> seq 0 m).
  assert (Hend : slice_rows tmad (CF (1 + m)%nat) = []).
  { unfold slice_of. cbn [Nat.add].
    replace (Z.of_nat m + 1) with (Z.of_nat (S m)) by lia.
    rewrite Hn. apply slice_rows_same. }
  cbn [fmap list_fmap]. unfold compose. rewrite Hend.
  unfold slice_of.
  change (Z.of_nat 0) with 0. change (Z.of_nat 1) with 1. change (0 + 1) with 1.
  destruct H0 as [H0|H0]; rewrite H0.
  - rewrite slice_rows_same.
    apply (Permutation_cons_append (slice_rows tmad (0%nat, count_lt times 1) :: M)).
  - rewrite slice_rows_same. apply perm_skip, Permutation_cons_append.
Qed.
End rows.

(** The hypothesis of C2 read bin by bin: lists on which both binners give
    every event the same bin have no timestamp on a diverging edge. *)
Lemma agree_on_bins_no_diverging_edge (T : nat) (tmad : list Event) :
  agree_on_bins T tmad = true → no_diverging_edge T tmad = true.
Proof.
  unfold agree_on_bins, no_diverging_edge. rewrite forallb_forall. intros Hag.
  destruct T as [|n]; [done|]. cbn [Nat.eqb orb].
  assert (Hout : ∀ e, In e tmad → ¬ (0 ≤ ev_t e < Z.of_nat (S n))).
  { intros e He%Hag%bool_decide_eq_true [H0 HT]. revert He.
    unfold CountFrame_bin, EventSum_bin.
    destruct (Z.ltb_spec (ev_t e) (Z.of_nat (S n))); [|lia].
    destruct (Z.ltb_spec (ev_t e) 0); [lia|].
    destruct (Z.leb_spec 0 (ev_t e)); [|lia]. cbn.
    destruct (Z.ltb_spec (ev_t e + 1) (Z.of_nat (S n))); [|done].
    intros [= ?]. lia. }
  apply andb_true_intro. split; [|apply orb_true_intro; right];
    apply forallb_forall; intros e He%Hout; apply negb_true_iff, Z.eqb_neq; lia.
Qed.

(** The two edges do diverge: one event at [T - 1] is dropped by
    [ToEventSum] alone. *)
Lemma diverge_at_last_edge :
  ToEventSum (cfg111 1) [ev0] = Ok [[[[0]]]] ∧
  sum_axis0 (cfg111 1) <$> ToCountFrame (cfg111 1) [ev0] = Ok [[[[1]]]].
Proof. split; reflexivity. Qed.

(** And 64 events at -1 with 64 events at 0 in one cell overflow bin 0 of
    [ToCountFrame], not the bins 0 and 1 of [ToEventSum]. *)
Lemma diverge_at_zero_edge :
  is_sorted (map ev_t tmad_neg0) = true ∧
  ToEventSum (cfg111 2) tmad_neg0 = Ok [[[[128]]]] ∧
  sum_axis0 (cfg111 2) <$> ToCountFrame (cfg111 2) tmad_neg0 = Ok [[[[-128]]]].
Proof. by vm_compute. Qed.

(** C2: for every non-empty, timestamp-sorted event list in which no event
    timestamp lands on a bin edge where the two binners diverge (no event
    has timestamp [T - 1], and no event has timestamp [0] when some
    timestamp is negative), the output of [ToEventSum] is the output of
    [ToCountFrame] summed over the time axis with that axis kept; when an
    address is outside the frame both raise [IndexError]. *)
Theorem ToEventSum_is_summed_ToCountFrame (cfg : BinCfg) (tmad : list Event) :
  tmad ≠ [] →
  is_sorted (map ev_t tmad) = true →
  no_diverging_edge (T cfg) tmad = true →
  ToEventSum cfg tmad = sum_axis0 cfg <$> ToCountFrame cfg tmad.
Proof.
  intros Hne Hs Hno.
  unfold ToEventSum, ToEventSum_chunks, ToCountFrame.
  rewrite !binning_layers by done.
  change 0%nat
    with (fst (slice_of (λ t, Z.of_nat t) (map ev_t tmad) 0)) at 2.
  rewrite bin_slices_sorted by (done || (intros; lia)).
  change 0%nat
    with (fst (slice_of (λ t, Z.of_nat t + 1) (map ev_t tmad) 0)) at 3.
  rewrite bin_slices_sorted by (done || (intros; lia)).
  by apply layers_permutation, rows_permutation.
Qed.

Lemma ToEventSum_is_summed_ToCountFrame_witness :
  tmad3 ≠ [] ∧
  is_sorted (map ev_t tmad3) = true ∧
  no_diverging_edge (T (mkBinCfg 4 2 2 2)) tmad3 = true ∧
  ToEventSum (mkBinCfg 4 2 2 2) tmad3
  = sum_axis0 (mkBinCfg 4 2 2 2) <$> ToCountFrame (mkBinCfg 4 2 2 2) tmad3.
Proof.
  split; [discriminate|]. split; [reflexivity|]. split; [reflexivity|].
  apply (ToEventSum_is_summed_ToCountFrame (mkBinCfg 4 2 2 2) tmad3);
    [discriminate|reflexivity|reflexivity].
Defined.

(** * Where the two binners put an event *)




(** * Empty input *)

(** C5: on the empty event list both binners raise [IndexError], at
    [times[0]], and return no tensor. *)
Theorem binners_empty_input (cfg : BinCfg) :
  ToCountFrame cfg [] = Raise IndexError ∧ ToEventSum cfg [] = Raise IndexError.
Proof. split; reflexivity. Qed.

(** * [np.where] and [np.delete] *)

Section where_delete.
Context {A : Type}.
Implicit Types (a : list A) (idx : list nat) (mask : list bool).

Lemma np_where_from_ge j mask k :
  In k (np_where_from j mask) → (j ≤ k)%nat.
Proof.
  revert j. induction mask as [|b mask IH]; intros j; cbn; [done|].
  destruct b; cbn; [intros [<-|H%IH]; lia|intros H%IH; lia].
Qed.

Lemma np_delete_from_skip j a k idx :
  (k < j)%nat → np_delete_from j a (k :: idx) = np_delete_from j a idx.
Proof.
  intros Hk. revert j Hk. induction a as [|r a IH]; intros j Hk; [done|].
  cbn. destruct (Nat.eqb_spec j k); [lia|]. cbn.
  rewrite IH by lia. done.
Qed.

Lemma np_delete_from_where (f : A → bool) j a :
  np_delete_from j a (np_where_from j (map f a)) = filter (λ e, f e = false) a.
Proof.
  revert j. induction a as [|r a IH]; intros j; [done|].
  cbn [map np_where_from].
  assert (Hno : existsb (Nat.eqb j) (np_where_from (S j) (map f a)) = false).
  { apply not_true_is_false. intros (k & Hk & Heq)%existsb_exists.
    apply Nat.eqb_eq in Heq as <-. apply np_where_from_ge in Hk. lia. }
  destruct (f r) eqn:Hf;
    [rewrite filter_cons_False by (by rewrite Hf)
    |rewrite filter_cons_True by done];
    cbn [np_delete_from existsb].
  - rewrite Nat.eqb_refl. cbn [orb]. rewrite np_delete_from_skip by lia.
    apply IH.
  - by rewrite Hno, IH.
Qed.

Lemma np_delete_where (f : A → bool) a :
  np_delete a (np_where (map f a)) = filter (λ e, f e = false) a.
Proof. apply np_delete_from_where. Qed.
End where_delete.

(** * Running a transform on a heap *)

Section run.
Implicit Types (h : heap) (l : loc) (a : list Event).

Lemma run_read {B} l a (k : list Event → M B) h :
  h !! l = Some a → (read l ≫= k) h = k a h.
Proof. intros Hl. unfold mbind, M_bind, read. by rewrite Hl. Qed.

Lemma run_lift_ok {A B} (v : A) (k : A → M B) h :
  (lift (Ok v) ≫= k) h = k v h.
Proof. done. Qed.

Lemma run_new {B} a (k : loc → M B) h :
  (new_array a ≫= k) h = k (length h) (h ++ [a]).
Proof. done. Qed.

Lemma run_write {B} l a (k : unit → M B) h :
  (write l a ≫= k) h = k () (<[l := a]> h).
Proof. done. Qed.

Lemma lookup_new h a : (h ++ [a]) !! length h = Some a.
Proof. by rewrite lookup_app_r, Nat.sub_diag. Qed.

Lemma insert_new h a a' : <[length h := a']> (h ++ [a]) = h ++ [a'].
Proof.
  rewrite insert_app_r_alt by lia. by rewrite Nat.sub_diag.
Qed.

Lemma column_rows d a :
  column d a = Ok (map (col d) a) ∨ column d a = Raise IndexError.
Proof. unfold column. destruct (d <? 4)%nat; auto. Qed.

Lemma set_column_rows d (g : Z → Z) a :
  zip_with (set_col d) (map g (map (col d) a)) a
  = map (λ e, set_col d (g (col d e)) e) a.
Proof. induction a as [|e a IH]; [done|]. cbn. by rewrite IH. Qed.

(** One pass of the loop of [CropDims]: the rows it leaves in a new object,
    and the heap it leaves behind. *)
Lemma CropDims_loop_run cfg ids : ∀ l h a,
  h !! l = Some a →
  match fold_result (CropDims_step cfg) a ids with
  | Ok a' => ∃ l' hs, CropDims_loop cfg ids l h = (Ok l', h ++ hs)
                      ∧ (h ++ hs) !! l' = Some a'
  | Raise e => ∃ hs, CropDims_loop cfg ids l h = (Raise e, h ++ hs)
  end.
Proof.
  induction ids as [|[i d] ids IH]; intros l h a Hl.
  { cbn. exists l, []. by rewrite app_nil_r. }
  cbn [CropDims_loop fold_result CropDims_step].
  rewrite (run_read _ _ _ _ Hl).
  destruct (column_rows d a) as [Hc|Hc]; rewrite Hc.
  2:{ cbn. exists []. by rewrite app_nil_r. }
  rewrite run_lift_ok.
  destruct (item (high_crop cfg) i) as [hi|e].
  2:{ cbn. exists []. by rewrite app_nil_r. }
  rewrite run_lift_ok, run_new, (run_read _ _ _ _ (lookup_new _ _)).
  rewrite map_map, np_delete_where.
  change (filter _ a) with (crop_rows (λ e, hi <=? col d e) a).
  set (a1 := crop_rows _ a).
  destruct (column_rows d a1) as [Hc1|Hc1]; [|unfold column in *;
    destruct (d <? 4)%nat; done].
  rewrite Hc1, run_lift_ok.
  cbn [mbind Result_bind].
  destruct (item (low_crop cfg) i) as [lo|e].
  2:{ cbn. by exists [a1]. }
  rewrite run_lift_ok, run_new, (run_read _ _ _ _ (lookup_new _ _)).
  rewrite map_map, np_delete_where.
  change (filter _ a1) with (crop_rows (λ e, col d e <? lo) a1).
  set (a2 := crop_rows _ a1).
  destruct (column_rows d a2) as [Hc2|Hc2]; [|unfold column in *;
    destruct (d <? 4)%nat; done].
  rewrite Hc2, !run_lift_ok, run_write, set_column_rows, insert_new.
  cbn [mbind Result_bind].
  set (a3 := map _ a2).
  specialize (IH (length (h ++ [a1])) ((h ++ [a1]) ++ [a3]) a3 (lookup_new _ _)).
  change (fold_result _ _ ids) with (fold_result (CropDims_step cfg) a3 ids).
  destruct (fold_result (CropDims_step cfg) a3 ids) as [a'|e].
  - destruct IH as (l' & hs & Hrun & Hl').
    exists l', ([a1; a3] ++ hs). rewrite Hrun.
    rewrite <-!app_assoc in *. done.
  - destruct IH as (hs & Hrun).
    exists ([a1; a3] ++ hs). rewrite Hrun.
    rewrite <-!app_assoc in *. done.
Qed.

Lemma high_crop_unbound :
  load_global transforms_globals "high_crop" = Raise NameError.
Proof. by vm_compute. Qed.

Lemma run_bind {A B} (m : M A) (k : A → M B) h :
  (m ≫= k) h = match m h with
               | (Ok v, h') => k v h'
               | (Raise e, h') => (Raise e, h')
               end.
Proof. done. Qed.

Lemma Downsample_run f l h a :
  h !! l = Some a →
  Downsample f l h = match Downsample_rows f a with
                     | Ok a' => (Ok (length h), h ++ [a'])
                     | Raise e => (Raise e, h)
                     end.
Proof.
  intros Hl. unfold Downsample. rewrite (run_read _ _ _ _ Hl).
  destruct f as [k|[|k [|kp [|kx [|ky [|? ?]]]]]]; cbn [Downsample_rows];
    try done.
  by destruct (in_int64 k).
Qed.

Lemma Crop_run cfg l h :
  Crop transforms_globals cfg l h = (Raise NameError, h).
Proof. unfold Crop. by rewrite high_crop_unbound. Qed.

Lemma translate_rows tr a :
  zip_with (λ e t, mkEvent (ev_t e) (ev_p e) (ev_x e - fst t) (ev_y e - snd t))
    a (replicate (length a) tr)
  = map (translate tr) a.
Proof. induction a as [|e a IH]; [done|]. cbn. by rewrite IH. Qed.

(** [CropCenter] overwrites the rows of its argument with the translated
    rows, then crops two copies. *)
Lemma CropCenter_run cfg l h a :
  h !! l = Some a →
  ∃ a1, CropCenter cfg l h
        = (Ok (S (length h)),
           <[l := map (translate (translation cfg)) a]> h
             ++ [a1; CropCenter_rows cfg a]).
Proof.
  intros Hl. unfold CropCenter.
  assert (Hlt : (l < length h)%nat) by (by eapply lookup_lt_Some).
  eexists.
  rewrite (run_read _ _ _ _ Hl), run_write, translate_rows. cbv beta.
  rewrite (run_read _ _ _ _ (list_lookup_insert_eq _ _ _ Hlt)).
  rewrite run_new, (run_read _ _ _ _ (lookup_new _ _)), run_new.
  rewrite !np_delete_where. unfold mret, M_ret.
  rewrite length_app, length_insert, <-app_assoc. cbn [length app].
  rewrite Nat.add_1_r. done.
Qed.

(** What a call returns depends on the rows of its argument only. *)
Lemma call_content tr l h a :
  h !! l = Some a → content (call tr l h) = denote tr a.
Proof.
  intros Hl. destruct tr as [f|cfg|cfg|cfg|cfg|cfg]; cbn [call denote];
    try rewrite (run_read _ _ _ _ Hl); try rewrite run_bind.
  - rewrite (Downsample_run _ _ _ _ Hl).
    destruct (Downsample_rows f a); [|done]. cbn. by rewrite lookup_new.
  - rewrite Crop_run. unfold Crop_rows. by rewrite high_crop_unbound.
  - unfold CropDims, CropDims_rows.
    pose proof (CropDims_loop_run cfg (enumerate (dims cfg)) l h a Hl) as Hrun.
    destruct (fold_result _ a _) as [a'|e].
    + destruct Hrun as (l' & hs & -> & Hl'). cbn. by rewrite Hl'.
    + by destruct Hrun as (hs & ->).
  - destruct (CropCenter_run cfg l h a Hl) as [a1 ->]. cbn.
    rewrite lookup_app_r; rewrite length_insert; [|lia].
    by replace (S (length h) - length h)%nat with 1%nat by lia.
  - by destruct (ToCountFrame cfg a).
  - by destruct (ToEventSum cfg a).
Qed.

(** No transform but [CropCenter] writes to an object that existed before
    the call. *)
Lemma call_frame tr l h a :
  h !! l = Some a → (∀ cfg, tr ≠ TCropCenter cfg) →
  ∃ hs, snd (call tr l h) = h ++ hs.
Proof.
  intros Hl Htr.
  destruct tr as [f|cfg|cfg|cfg|cfg|cfg]; cbn [call];
    try rewrite (run_read _ _ _ _ Hl); try rewrite run_bind.
  - rewrite (Downsample_run _ _ _ _ Hl).
    destruct (Downsample_rows f a); [by eexists [_]|].
    exists []. by rewrite app_nil_r.
  - rewrite Crop_run. exists []. by rewrite app_nil_r.
  - unfold CropDims.
    pose proof (CropDims_loop_run cfg (enumerate (dims cfg)) l h a Hl) as Hrun.
    destruct (fold_result _ a _) as [a'|e].
    + destruct Hrun as (l' & hs & -> & Hl'). by exists hs.
    + destruct Hrun as (hs & ->). by exists hs.
  - by destruct (Htr cfg).
  - exists []. rewrite app_nil_r. by destruct (ToCountFrame cfg a).
  - exists []. rewrite app_nil_r. by destruct (ToEventSum cfg a).
Qed.
End run.

(** * CropDims: the bounds of the output *)

Section crop_dims.
Context (cfg : CropDimsCfg).








End crop_dims.




(** * Crop *)

(** C6: whatever the configured bounds and the input, [Crop.__call__]
    evaluates the name [high_crop], which no global of the module binds, and
    raises [NameError] before it touches the array; the configured
    [self.low] and [self.high] play no part, so no cropped event list is ever
    returned. *)
Theorem Crop_name_error (cfg : CropCfg) (tmad : loc) (h : heap) :
  transforms_globals !! "high_crop" = None ∧
  Crop transforms_globals cfg tmad h = (Raise NameError, h) ∧
  ∀ globals cfg', Crop globals cfg tmad h = Crop globals cfg' tmad h.
Proof.
  split; [by vm_compute|]. split; [apply Crop_run|done].
Qed.

(** * Purity of the transforms *)

(** C4 fails on the code: [CropCenter] subtracts its translation from the
    coordinate columns of the very array it is given, before [np.delete]
    makes a copy.  After [CropCenter([3, 3], [2, 4, 4])] on the array
    [[(0, 0, 2, 2)]] the argument holds [(0, 0, 1, 1)]; for every
    configuration and array the argument is left holding the translated rows.
    The sibling [CropDims] deletes first and rebases the copy, and leaves its
    argument as it was. *)
Theorem CropCenter_mutates_argument :
  CropCenter_init (3, 3) (2, 4, 4) = Ok cfg_center ∧
  translation cfg_center = (1, 1) ∧
  (let h := [[mkEvent 0 0 2 2]] in
   h !! 0%nat = Some [mkEvent 0 0 2 2] ∧
   snd (call (TCropCenter cfg_center) 0%nat h) !! 0%nat = Some [mkEvent 0 0 1 1] ∧
   snd (call (TCropCenter cfg_center) 0%nat h) !! 0%nat ≠ h !! 0%nat) ∧
  snd (call (TCropDims cfg_crop) 0%nat [[mkEvent 0 0 7 0]]) !! 0%nat
  = Some [mkEvent 0 0 7 0] ∧
  ∀ cfg a, snd (call (TCropCenter cfg) 0%nat [a]) !! 0%nat
           = Some (map (translate (translation cfg)) a).
Proof.
  split; [reflexivity|]. split; [reflexivity|].
  split; [split_and!; [reflexivity..|discriminate]|].
  split; [reflexivity|].
  intros cfg a. cbn [call]. rewrite run_bind.
  by destruct (CropCenter_run cfg 0%nat [a] a eq_refl) as [a1 ->].
Qed.

(** X26: each of [Downsample], [Crop], [CropDims], [ToCountFrame]
    and [ToEventSum] leaves every array that existed before the call, its
    argument among them, as it was, and what it returns (or raises) is
    determined by the instance configuration and the rows of the argument
    alone: it is the same in any two heaps and at any two references that
    hold the same rows. *)
Theorem transforms_pure (tr : Transform) (h1 h2 : heap) (l1 l2 : loc)
    (a : list Event) :
  (∀ cfg, tr ≠ TCropCenter cfg) →
  h1 !! l1 = Some a → h2 !! l2 = Some a →
  snd (call tr l1 h1) !! l1 = Some a ∧
  h1 `prefix_of` snd (call tr l1 h1) ∧
  content (call tr l1 h1) = content (call tr l2 h2).
Proof.
  intros Htr H1 H2.
  destruct (call_frame tr l1 h1 a H1 Htr) as [hs ->].
  split; [by apply lookup_app_l_Some|]. split; [by exists hs|].
  by rewrite (call_content tr l1 h1 a H1), (call_content tr l2 h2 a H2).
Qed.

Lemma transforms_pure_witness :
  (∀ cfg, TCropDims cfg_crop ≠ TCropCenter cfg) ∧
  [[mkEvent 0 0 7 0]] !! 0%nat = Some [mkEvent 0 0 7 0] ∧
  [[]; [mkEvent 0 0 7 0]] !! 1%nat = Some [mkEvent 0 0 7 0] ∧
  snd (call (TCropDims cfg_crop) 0%nat [[mkEvent 0 0 7 0]]) !! 0%nat
  = Some [mkEvent 0 0 7 0] ∧
  [[mkEvent 0 0 7 0]]
    `prefix_of` snd (call (TCropDims cfg_crop) 0%nat [[mkEvent 0 0 7 0]]) ∧
  content (call (TCropDims cfg_crop) 0%nat [[mkEvent 0 0 7 0]])
  = content (call (TCropDims cfg_crop) 1%nat [[]; [mkEvent 0 0 7 0]]).
Proof.
  split; [discriminate|]. split; [reflexivity|]. split; [reflexivity|].
  apply (transforms_pure (TCropDims cfg_crop) [[mkEvent 0 0 7 0]]
           [[]; [mkEvent 0 0 7 0]] 0%nat 1%nat [mkEvent 0 0 7 0]);
    [discriminate|reflexivity|reflexivity].
Defined.

(** * toOneHot *)

(** C8, as stated, fails: the labels [[0, 2]] are an array of one axis, and
    [scatter_] refuses an index whose number of axes differs from that of
    the 2 x 3 tensor it fills. *)
Lemma toOneHot_counterexample :
  toOneHot 3 (Arr1 [0; 2]) = Raise RuntimeError ∧
  toOneHot 3 (Arr1 [0; 2]) ≠ Ok [[1; 0; 0]; [0; 0; 1]].
Proof. split; [reflexivity|discriminate]. Qed.

Lemma scatter_row_single (row : list Z) (k : nat) :
  (k < length row)%nat →
  scatter_row row [Z.of_nat k] = Ok (<[k := 1]> row).
Proof.
  intros Hk. cbn.
  destruct (Z.leb_spec 0 (Z.of_nat k)); [|lia].
  destruct (Z.ltb_spec (Z.of_nat k) (Z.of_nat (length row))); [|lia].
  cbn. by rewrite Nat2Z.id.
Qed.

(** C8 (amended): [toOneHot] with [num_classes = 3] applied to the labels
    as a column, [[[0], [2]]], returns [[[1,0,0],[0,0,1]]]; and for any column
    of [n] labels below [num_classes] it returns [n] rows of [num_classes]
    entries, row [i] holding 1 at the index of label [i] and 0 elsewhere. *)
Theorem toOneHot_column (num_classes : nat) (labels : list nat) :
  Forall (λ k, (k < num_classes)%nat) labels →
  toOneHot 3 (Arr2 [[0]; [2]]) = Ok [[1; 0; 0]; [0; 0; 1]] ∧
  ∃ out, toOneHot num_classes (Arr2 ((λ k, [Z.of_nat k]) <$> labels)) = Ok out ∧
    length out = length labels ∧
    ∀ i k row, labels !! i = Some k → out !! i = Some row →
      length row = num_classes ∧
      ∀ j, (j < num_classes)%nat → row !! j = Some (if decide (j = k) then 1 else 0).
Proof.
  intros Hl. split; [reflexivity|].
  unfold toOneHot, scatter_1, shape0. rewrite length_fmap.
  induction Hl as [|k labels Hk Hl IH].
  { exists []. by split_and!. }
  destruct IH as (out & Hout & Hlen & Hrows).
  cbn [length replicate fmap list_fmap scatter_rows].
  rewrite scatter_row_single by (by rewrite length_replicate).
  cbn [mbind Result_bind]. rewrite Hout. cbn [mbind Result_bind].
  eexists. split; [done|]. split; [cbn; by rewrite Hlen|].
  intros [|i] k' row; cbn.
  - intros [= <-] [= <-]. split; [by rewrite length_insert, length_replicate|].
    intros j Hj. destruct (decide (j = k)) as [->|Hne].
    + rewrite list_lookup_insert_eq; [done|by rewrite length_replicate].
    + rewrite list_lookup_insert_ne by done. by rewrite lookup_replicate_2.
  - apply Hrows.
Qed.

Lemma toOneHot_column_witness :
  Forall (λ k, (k < 3)%nat) [0%nat; 2%nat] ∧
  toOneHot 3 (Arr2 [[0]; [2]]) = Ok [[1; 0; 0]; [0; 0; 1]] ∧
  ∃ out, toOneHot 3 (Arr2 ((λ k, [Z.of_nat k]) <$> [0%nat; 2%nat])) = Ok out ∧
    length out = length [0%nat; 2%nat] ∧
    ∀ i k row, [0%nat; 2%nat] !! i = Some k → out !! i = Some row →
      length row = 3%nat ∧
      ∀ j, (j < 3)%nat → row !! j = Some (if decide (j = k) then 1 else 0).
Proof.
  split; [repeat constructor|].
  apply (toOneHot_column 3 [0%nat; 2%nat]). repeat constructor.
Defined.

(** * ExpFilterEvents *)

(** C9 fails on the code: the constructor sets [groups = 2] whatever
    [channels] is, so for [channels = 3] the kernel has three output
    channels and the convolution two groups. *)
Theorem ExpFilterEvents_groups {F} (exp_kernel : nat → Z → list F)
    (length : nat) (tau : Z) (channels : nat) (tpad : option nat) :
  groups (ExpFilterEvents_init exp_kernel length tau channels tpad) = 2%nat ∧
  out_channels (kernel (ExpFilterEvents_init exp_kernel length tau channels tpad))
  = channels ∧
  groups (ExpFilterEvents_init exp_kernel 5 200 3 None) ≠ 3%nat.
Proof. split; [reflexivity|]. split; [reflexivity|discriminate]. Qed.

(** * Jitter *)

(** With a non-zero shift the result follows the draws of the global
    generator: the same instance on the same tensor puts 4 or 1 in the first
    cell. *)
Lemma Jitter_depends_on_draws :
  ∃ out1 out2,
    Jitter ops_th0 cfg_jitter (mkDraws 0 0 0) data_1234 = Ok out1 ∧
    Jitter ops_th0 cfg_jitter (mkDraws 1 1 0) data_1234 = Ok out2 ∧
    at5 out1 0 0 0 0 0 = 4 ∧ at5 out2 0 0 0 0 0 = 1.
Proof. do 2 eexists. by split_and!; [reflexivity..|vm_compute|vm_compute]. Qed.

(** C10: with [xs = 0], [ys = 0] and [th = 0], [Jitter] returns its input
    tensor itself, whatever the random generator would have drawn and
    whatever the configured size. *)
Theorem Jitter_zero_identity {F} (ops : FloatOps F) (size : nat * nat * nat)
    (rng : Draws F) (data : Tensor5 F) :
  Jitter ops (mkJitterCfg 0 0 0 size) rng data = Ok data.
Proof. reflexivity. Qed.

(** * More on the binners *)

(** ** [find_first] on any list and on ascending lists *)

Lemma bisect_loop_bounds (fuel : nat) (a : list Z) (x : Z) (lo hi : nat) :
  (lo ≤ hi)%nat → (lo ≤ bisect_loop fuel a x lo hi ≤ hi)%nat.
Proof.
  revert lo hi. induction fuel as [|fuel IH]; intros lo hi Hle;
    cbn [bisect_loop]; [lia|].
  destruct (Nat.ltb_spec lo hi) as [Hlt|]; [|lia].
  pose proof (mid_bounds lo hi Hlt) as Hm.
  destruct (nth _ a 0 <? x).
  - specialize (IH ((lo + hi) / 2 + 1)%nat hi). lia.
  - specialize (IH lo ((lo + hi) / 2)%nat). lia.
Qed.

(** X1: whatever the list, ascending or not, [find_first] returns a
    position between 0 and its length, so [times[idx_end:]] and
    [addrs[idx_start:idx_end]] never reach past the end of the array. *)
Theorem find_first_le_length (a : list Z) (tgt : Z) :
  (find_first a tgt ≤ length a)%nat.
Proof.
  unfold find_first, bisect_left.
  pose proof (bisect_loop_bounds (length a) a tgt 0 (length a)). lia.
Qed.

(** X2: on an ascending list [find_first] is the leftmost insertion point
    of the target: every entry before it is below the target, every entry
    from it on is not. *)
Theorem find_first_insertion_point (a : list Z) (tgt : Z) :
  is_sorted a = true →
  Forall (λ v, v < tgt) (take (find_first a tgt) a) ∧
  Forall (λ v, tgt ≤ v) (drop (find_first a tgt) a).
Proof.
  intros Hs. rewrite find_first_sorted by done.
  split; [by apply sorted_take_count|by apply sorted_drop_count].
Qed.

Lemma find_first_insertion_point_witness :
  is_sorted [1; 3; 3; 7] = true ∧
  Forall (λ v, v < 3) (take (find_first [1; 3; 3; 7] 3) [1; 3; 3; 7]) ∧
  Forall (λ v, 3 ≤ v) (drop (find_first [1; 3; 3; 7] 3) [1; 3; 3; 7]).
Proof.
  split; [reflexivity|].
  apply (find_first_insertion_point [1; 3; 3; 7] 3). reflexivity.
Defined.

(** ** The cells of a binned tensor *)

Lemma wrap8_add_l (a b : Z) : wrap8 (wrap8 a + b) = wrap8 (a + b).
Proof.
  unfold wrap8.
  replace ((a + 128) mod 256 - 128 + b + 128) with ((a + 128) mod 256 + b) by lia.
  rewrite Zplus_mod_idemp_l. do 2 f_equal. lia.
Qed.

Lemma get3_upd3_eq f p x y (l : Tensor3) :
  get3 (upd3 f p x y l) p x y = f <$> get3 l p x y.
Proof.
  unfold get3, upd3. rewrite list_lookup_alter_eq.
  destruct (l !! p) as [l2|]; [cbn|done].
  rewrite list_lookup_alter_eq.
  destruct (l2 !! x) as [l1|]; [cbn|done].
  by rewrite list_lookup_alter_eq.
Qed.

Lemma get3_upd3_ne f p x y (l : Tensor3) p' x' y' :
  (p, x, y) ≠ (p', x', y') →
  get3 (upd3 f p x y l) p' x' y' = get3 l p' x' y'.
Proof.
  intros Hne. unfold get3, upd3.
  destruct (decide (p = p')) as [<-|]; [|by rewrite list_lookup_alter_ne].
  rewrite list_lookup_alter_eq.
  destruct (l !! p) as [l2|]; [cbn|done].
  destruct (decide (x = x')) as [<-|]; [|by rewrite list_lookup_alter_ne].
  rewrite list_lookup_alter_eq.
  destruct (l2 !! x) as [l1|]; [cbn|done].
  destruct (decide (y = y')) as [<-|]; [done|by rewrite list_lookup_alter_ne].
Qed.

Lemma get3_zeros C H W p x y :
  (p < C)%nat → (x < H)%nat → (y < W)%nat →
  get3 (zeros3 C H W) p x y = Some 0.
Proof.
  intros. unfold get3, zeros3.
  rewrite lookup_replicate_2 by done. cbn.
  rewrite lookup_replicate_2 by done. cbn.
  by rewrite lookup_replicate_2.
Qed.

(** A cell after [np.add.at]: its count so far plus the rows that address
    it, in [int8]. *)
Lemma add_at3_cell cfg ee p x y : ∀ layer layer' m,
  get3 layer p x y = Some (wrap8 m) →
  add_at3 cfg layer ee = Ok layer' →
  get3 layer' p x y
  = Some (wrap8 (m + Z.of_nat (cell_count cfg ee (Some (p, x, y))))).
Proof.
  unfold cell_count.
  induction ee as [|e ee IH]; intros layer layer' m Hm; cbn [add_at3].
  { intros [= <-]. cbn. by rewrite Z.add_0_r. }
  destruct (cell_of cfg e) as [[[p0 x0] y0]|] eqn:Hc; [|done].
  intros Hadd.
  destruct (decide ((p0, x0, y0) = (p, x, y))) as [[= -> -> ->]|Hne].
  - rewrite filter_cons_True by done. cbn [length]. rewrite Nat2Z.inj_succ.
    replace (m + Z.succ (Z.of_nat (length (filter (λ e, cell_of cfg e = Some (p, x, y)) ee))))
      with (m + 1 + Z.of_nat (length (filter (λ e, cell_of cfg e = Some (p, x, y)) ee)))
      by lia.
    eapply (IH _ _ (m + 1)); [|exact Hadd].
    rewrite get3_upd3_eq, Hm. cbn. by rewrite wrap8_add_l.
  - rewrite filter_cons_False by (rewrite Hc; congruence).
    eapply (IH _ _ m); [|exact Hadd]. by rewrite get3_upd3_ne.
Qed.

Lemma layers_length cfg rows ls :
  layers cfg rows = Ok ls → length ls = length rows.
Proof.
  revert ls. induction rows as [|ee rows IH]; intros ls; cbn.
  { by intros [= <-]. }
  destruct (layer_of cfg ee) as [l|]; [cbn|done].
  destruct (layers cfg rows) as [ls'|]; [cbn|done].
  intros [= <-]. cbn. by rewrite (IH ls').
Qed.

Lemma layers_lookup cfg rows ls i ee :
  layers cfg rows = Ok ls → rows !! i = Some ee →
  ∃ l, ls !! i = Some l ∧ layer_of cfg ee = Ok l.
Proof.
  revert ls i. induction rows as [|ee0 rows IH]; intros ls i; cbn; [done|].
  destruct (layer_of cfg ee0) as [l|] eqn:Hl; [cbn|done].
  destruct (layers cfg rows) as [ls'|]; [cbn|done].
  intros [= <-]. destruct i as [|i]; cbn.
  - intros [= <-]. eauto.
  - by apply IH.
Qed.

Lemma filter_all {A} (P : A → Prop) `{!∀ x, Decision (P x)} (l : list A) :
  Forall P l → filter P l = l.
Proof.
  induction 1 as [|x l Hx _ IH]; [done|].
  by rewrite filter_cons_True, IH.
Qed.

Lemma filter_none {A} (P : A → Prop) `{!∀ x, Decision (P x)} (l : list A) :
  Forall (λ x, ¬ P x) l → filter P l = [].
Proof.
  induction 1 as [|x l Hx _ IH]; [done|].
  by rewrite filter_cons_False.
Qed.

(** Ascending rows split at [count_lt] into those below [x] and the
    rest. *)
Lemma sorted_rows_split (tmad : list Event) x :
  is_sorted (map ev_t tmad) = true →
  take (count_lt (map ev_t tmad) x) tmad = filter (λ e, ev_t e < x) tmad ∧
  drop (count_lt (map ev_t tmad) x) tmad = filter (λ e, ¬ ev_t e < x) tmad.
Proof.
  unfold count_lt.
  induction tmad as [|e tm IH]; cbn [map is_sorted]; intros Hs; [done|].
  apply andb_prop in Hs as [He Hs]. destruct (IH Hs) as [IHt IHd].
  destruct (decide (ev_t e < x)) as [Hlt|Hge].
  - rewrite filter_cons_True by done. cbn [length take drop].
    rewrite (filter_cons_True (λ e, ev_t e < x)) by done.
    rewrite (filter_cons_False (λ e, ¬ ev_t e < x)) by tauto.
    by rewrite IHt, IHd.
  - rewrite filter_cons_False by done.
    assert (Hall : Forall (λ e', ¬ ev_t e' < x) tm).
    { rewrite forallb_forall in He. apply Forall_forall.
      intros e' He'. apply (list_elem_of_fmap_2 ev_t) in He'.
      apply list_elem_of_In, He, Z.leb_le in He'. lia. }
    assert (Hcnt : filter (λ v, v < x) (map ev_t tm) = []).
    { apply filter_none, Forall_fmap. by eapply Forall_impl. }
    rewrite Hcnt. cbn [length take drop].
    rewrite (filter_cons_False (λ e, ev_t e < x)) by done.
    rewrite (filter_cons_True (λ e, ¬ ev_t e < x)) by done.
    by rewrite filter_none, filter_all.
Qed.

(** The rows of a slice cut at two counts are the rows with timestamps
    between the two targets. *)
Lemma slice_rows_between (tmad : list Event) x1 x2 :
  is_sorted (map ev_t tmad) = true → x1 ≤ x2 →
  slice_rows tmad (count_lt (map ev_t tmad) x1, count_lt (map ev_t tmad) x2)
  = filter (λ e, x1 ≤ ev_t e < x2) tmad.
Proof.
  intros Hs Hx. unfold slice_rows. cbn [fst snd].
  set (c1 := count_lt (map ev_t tmad) x1).
  assert (Hs1 : is_sorted (map ev_t (drop c1 tmad)) = true).
  { change (map ev_t ?l) with (ev_t <$> l).
    rewrite fmap_drop. by apply is_sorted_drop. }
  assert (Hc : (count_lt (map ev_t tmad) x2 - c1)%nat
               = count_lt (map ev_t (drop c1 tmad)) x2).
  { change (map ev_t (drop c1 tmad)) with (ev_t <$> drop c1 tmad).
    rewrite fmap_drop. change (ev_t <$> tmad) with (map ev_t tmad).
    pose proof (count_lt_app (take c1 (map ev_t tmad))
                  (drop c1 (map ev_t tmad)) x2) as Happ.
    rewrite take_drop in Happ.
    rewrite (count_lt_all (take _ _)) in Happ.
    - rewrite length_take in Happ.
      pose proof (count_lt_le (map ev_t tmad) x1). fold c1 in H. lia.
    - eapply Forall_impl; [by apply sorted_take_count|]. cbn. lia. }
  rewrite Hc.
  destruct (sorted_rows_split (drop c1 tmad) x2 Hs1) as [-> _].
  destruct (sorted_rows_split tmad x1 Hs) as [_ Hd]. fold c1 in Hd.
  rewrite Hd, list_filter_filter. apply list_filter_iff. intros e. lia.
Qed.

Lemma CountFrame_bin_lt (T : nat) (t : Z) (i : nat) :
  CountFrame_bin T t = Some i → (i < T)%nat.
Proof.
  unfold CountFrame_bin.
  destruct (Z.ltb_spec t (Z.of_nat T)), (Nat.ltb_spec 0 T); cbn; try done.
  intros [= <-]. lia.
Qed.

Lemma EventSum_bin_lt (T : nat) (t : Z) (i : nat) :
  EventSum_bin T t = Some i → (i < T)%nat.
Proof.
  unfold EventSum_bin.
  destruct (Z.ltb_spec t 0), (Nat.ltb_spec 0 T); cbn; try (intros [= <-]; lia).
  - destruct (Z.leb_spec 0 t); [lia|done].
  - destruct (Z.leb_spec 0 t), (Z.ltb_spec (t + 1) (Z.of_nat T)); cbn;
      try done. intros [= <-]. lia.
  - destruct (Z.leb_spec 0 t), (Z.ltb_spec (t + 1) (Z.of_nat T)); cbn;
      try done. lia.
Qed.

Section bin_rows.
Context (cfg : BinCfg) (tmad : list Event).
Local Abbreviation times := (map ev_t tmad).
Hypothesis sorted : is_sorted times = true.

(** The rows [ToCountFrame] scatters into bin [i]. *)
Lemma CountFrame_rows i :
  (i < T cfg)%nat →
  slice_rows tmad (slice_of (λ t, Z.of_nat t + 1) times i)
  = filter (λ e, CountFrame_bin (T cfg) (ev_t e) = Some i) tmad.
Proof.
  intros Hi. unfold slice_of. destruct i as [|i'].
  - unfold slice_rows. cbn [fst snd]. rewrite Nat.sub_0_r, drop_0.
    destruct (sorted_rows_split tmad (Z.of_nat 0 + 1) sorted) as [-> _].
    apply list_filter_iff. intros e. unfold CountFrame_bin.
    destruct (Z.ltb_spec (ev_t e) (Z.of_nat (T cfg))),
      (Nat.ltb_spec 0 (T cfg)); cbn; try lia.
    + split; [intros ?; f_equal; lia|intros [= ?]; lia].
    + split; [lia|done].
  - rewrite slice_rows_between by (done || lia).
    apply list_filter_iff. intros e. unfold CountFrame_bin.
    destruct (Z.ltb_spec (ev_t e) (Z.of_nat (T cfg))),
      (Nat.ltb_spec 0 (T cfg)); cbn; try lia.
    + split; [intros ?; f_equal; lia|intros [= ?]; lia].
    + split; [lia|done].
Qed.

(** The rows [ToEventSum] scatters into bin [i]. *)
Lemma EventSum_rows i :
  (i < T cfg)%nat →
  slice_rows tmad (slice_of (λ t, Z.of_nat t) times i)
  = filter (λ e, EventSum_bin (T cfg) (ev_t e) = Some i) tmad.
Proof.
  intros Hi. unfold slice_of. destruct i as [|i'].
  - unfold slice_rows. cbn [fst snd]. rewrite Nat.sub_0_r, drop_0.
    destruct (sorted_rows_split tmad (Z.of_nat 0) sorted) as [-> _].
    apply list_filter_iff. intros e. unfold EventSum_bin.
    destruct (Z.ltb_spec (ev_t e) 0), (Nat.ltb_spec 0 (T cfg)); cbn; try lia.
    + split; [done|lia].
    + destruct (Z.leb_spec 0 (ev_t e)); [|lia].
      destruct (Z.ltb_spec (ev_t e + 1) (Z.of_nat (T cfg))); cbn.
      * split; [lia|intros [= ?]; lia].
      * split; [lia|done].
  - rewrite slice_rows_between by (done || lia).
    apply list_filter_iff. intros e. unfold EventSum_bin.
    destruct (Z.ltb_spec (ev_t e) 0), (Nat.ltb_spec 0 (T cfg)); cbn; try lia.
    + split; [lia|done].
    + destruct (Z.leb_spec 0 (ev_t e)); [|lia].
      destruct (Z.ltb_spec (ev_t e + 1) (Z.of_nat (T cfg))); cbn.
      * split; [intros ?; f_equal; lia|intros [= ?]; lia].
      * split; [lia|done].
Qed.

(** The layers of [ToCountFrame] and of [ToEventSum] before its sum. *)
Lemma CountFrame_layers :
  tmad ≠ [] →
  ToCountFrame cfg tmad
  = layers cfg ((λ i, filter (λ e, CountFrame_bin (T cfg) (ev_t e) = Some i) tmad)
                <$> seq 0 (T cfg)).
Proof.
  intros Hne. unfold ToCountFrame. rewrite binning_layers by done.
  change 0%nat with (fst (slice_of (λ t, Z.of_nat t + 1) times 0)) at 2.
  rewrite bin_slices_sorted by (done || (intros; lia)).
  rewrite <-list_fmap_compose. f_equal.
  apply list_fmap_ext. intros k i [-> Hi]%lookup_seq. cbn.
  by apply CountFrame_rows.
Qed.

Lemma EventSum_layers :
  tmad ≠ [] →
  ToEventSum_chunks cfg tmad
  = layers cfg ((λ i, filter (λ e, EventSum_bin (T cfg) (ev_t e) = Some i) tmad)
                <$> seq 0 (T cfg)).
Proof.
  intros Hne. unfold ToEventSum_chunks. rewrite binning_layers by done.
  change 0%nat with (fst (slice_of (λ t, Z.of_nat t) times 0)) at 2.
  rewrite bin_slices_sorted by (done || (intros; lia)).
  rewrite <-list_fmap_compose. f_equal.
  apply list_fmap_ext. intros k i [-> Hi]%lookup_seq. cbn.
  by apply EventSum_rows.
Qed.
End bin_rows.

Lemma binning_ok_nonempty target cfg tmad out :
  binning target cfg tmad = Ok out → tmad ≠ [].
Proof. by destruct tmad. Qed.

(** X3: on ascending timestamps every cell [(i, p, x, y)] of the tensor
    [ToCountFrame] returns holds the number of events that are given bin [i]
    and address that cell (negative addresses counting from the end of
    their axis), reduced to [int8]. *)
Theorem ToCountFrame_cell (cfg : BinCfg) (tmad : list Event) (out : Tensor4) :
  is_sorted (map ev_t tmad) = true →
  ToCountFrame cfg tmad = Ok out →
  ∀ i p x y,
    (i < T cfg)%nat → (p < size_C cfg)%nat → (x < size_H cfg)%nat →
    (y < size_W cfg)%nat →
    get4 out i p x y
    = Some (wrap8 (Z.of_nat (length
        (filter (λ e, cell_of cfg e = Some (p, x, y)
                      ∧ CountFrame_bin (T cfg) (ev_t e) = Some i) tmad)))).
Proof.
  intros Hs Hout i p x y Hi Hp Hx Hy.
  pose proof (binning_ok_nonempty _ _ _ _ Hout) as Hne.
  rewrite (CountFrame_layers cfg tmad Hs Hne) in Hout.
  destruct (layers_lookup cfg _ out i
              (filter (λ e, CountFrame_bin (T cfg) (ev_t e) = Some i) tmad) Hout)
    as (l & Hl & Hlayer).
  { by rewrite list_lookup_fmap, lookup_seq_lt. }
  unfold get4. rewrite Hl. cbn.
  change (l !! p ≫= λ l2, l2 !! x ≫= λ l1, l1 !! y) with (get3 l p x y).
  rewrite (add_at3_cell cfg _ p x y _ l 0 (get3_zeros _ _ _ _ _ _ Hp Hx Hy) Hlayer).
  unfold cell_count. by rewrite list_filter_filter.
Qed.

Lemma ToCountFrame_cell_witness :
  is_sorted (map ev_t tmad3) = true ∧
  ToCountFrame cfg322 tmad3
  = Ok [[[[1; 0]; [0; 0]]; [[0; 0]; [0; 0]]];
        [[[0; 0]; [0; 0]]; [[0; 0]; [1; 0]]];
        [[[0; 1]; [0; 0]]; [[0; 0]; [0; 0]]]] ∧
  ∀ i p x y,
    (i < T cfg322)%nat → (p < size_C cfg322)%nat → (x < size_H cfg322)%nat →
    (y < size_W cfg322)%nat →
    get4 [[[[1; 0]; [0; 0]]; [[0; 0]; [0; 0]]];
          [[[0; 0]; [0; 0]]; [[0; 0]; [1; 0]]];
          [[[0; 1]; [0; 0]]; [[0; 0]; [0; 0]]]] i p x y
    = Some (wrap8 (Z.of_nat (length
        (filter (λ e, cell_of cfg322 e = Some (p, x, y)
                      ∧ CountFrame_bin (T cfg322) (ev_t e) = Some i) tmad3)))).
Proof.
  split; [reflexivity|]. split; [reflexivity|].
  apply (ToCountFrame_cell cfg322 tmad3); reflexivity.
Defined.

(** ** When the binners return, and the shape of what they return *)

Lemma add_at3_ok_iff cfg ee : ∀ layer,
  (∃ layer', add_at3 cfg layer ee = Ok layer')
  ↔ Forall (λ e, is_Some (cell_of cfg e)) ee.
Proof.
  induction ee as [|e ee IH]; intros layer; cbn [add_at3].
  { split; [constructor|by eexists]. }
  rewrite Forall_cons.
  destruct (cell_of cfg e) as [[[p x] y]|].
  - rewrite IH. split; [by split|by intros [_ ?]].
  - split; [by intros [? ?]|by intros [[? ?] _]].
Qed.

Lemma layers_ok_iff cfg rows :
  (∃ ls, layers cfg rows = Ok ls)
  ↔ Forall (Forall (λ e, is_Some (cell_of cfg e))) rows.
Proof.
  induction rows as [|ee rows IH]; cbn [layers].
  { split; [constructor|by eexists]. }
  rewrite Forall_cons, <-IH, <-(add_at3_ok_iff cfg ee
    (zeros3 (size_C cfg) (size_H cfg) (size_W cfg))).
  unfold layer_of.
  destruct (add_at3 cfg _ ee) as [l|]; cbn.
  - destruct (layers cfg rows) as [ls|]; cbn.
    + split; [intros _; split; by eexists|by eexists].
    + split; [by intros [? ?]|by intros [_ [? ?]]].
  - split; [by intros [? ?]|by intros [[? ?] _]].
Qed.

(** X4: on a non-empty list of ascending timestamps [ToCountFrame] returns
    a tensor exactly when every event that is given a bin addresses a cell
    of the frame; events at or after [T] are never looked at, and the only
    exception it raises is [IndexError]. *)
Theorem ToCountFrame_returns_iff (cfg : BinCfg) (tmad : list Event) :
  tmad ≠ [] →
  is_sorted (map ev_t tmad) = true →
  ((∃ out, ToCountFrame cfg tmad = Ok out)
   ↔ Forall (λ e, is_Some (CountFrame_bin (T cfg) (ev_t e))
                  → is_Some (cell_of cfg e)) tmad)
  ∧ ∀ e, ToCountFrame cfg tmad = Raise e → e = IndexError.
Proof.
  intros Hne Hs. rewrite (CountFrame_layers cfg tmad Hs Hne).
  split; [|intros e; apply layers_raises].
  rewrite layers_ok_iff, Forall_fmap, !Forall_forall. split.
  - intros Hrows e He [i Hi]. pose proof (CountFrame_bin_lt _ _ _ Hi) as Hlt.
    specialize (Hrows i). cbn in Hrows. rewrite Forall_forall in Hrows.
    apply Hrows; [apply elem_of_seq; lia|].
    by apply list_elem_of_filter.
  - intros Hall i _. cbn. apply Forall_forall.
    intros e [Hi He]%list_elem_of_filter. apply Hall; [done|by eexists].
Qed.

Lemma ToCountFrame_returns_iff_witness :
  tmad3 ≠ [] ∧
  is_sorted (map ev_t tmad3) = true ∧
  ((∃ out, ToCountFrame cfg322 tmad3 = Ok out)
   ↔ Forall (λ e, is_Some (CountFrame_bin (T cfg322) (ev_t e))
                  → is_Some (cell_of cfg322 e)) tmad3)
  ∧ ∀ e, ToCountFrame cfg322 tmad3 = Raise e → e = IndexError.
Proof.
  split; [discriminate|]. split; [reflexivity|].
  apply (ToCountFrame_returns_iff cfg322 tmad3); [discriminate|reflexivity].
Defined.

Lemma shaped3_zeros C H W : shaped3 C H W (zeros3 C H W).
Proof.
  unfold shaped3, zeros3. split; [apply length_replicate|].
  apply Forall_replicate. split; [apply length_replicate|].
  apply Forall_replicate, length_replicate.
Qed.

Lemma shaped3_upd3 C H W f p x y l :
  shaped3 C H W l → shaped3 C H W (upd3 f p x y l).
Proof.
  unfold shaped3, upd3. intros [Hlen Hall]. split; [by rewrite length_alter|].
  apply Forall_alter; [done|]. intros l2 _ [Hlen2 Hall2].
  split; [by rewrite length_alter|].
  apply Forall_alter; [done|]. intros l1 _ Hlen1. by rewrite length_alter.
Qed.

Lemma add_at3_shaped cfg C H W ee : ∀ layer layer',
  shaped3 C H W layer → add_at3 cfg layer ee = Ok layer' →
  shaped3 C H W layer'.
Proof.
  induction ee as [|e ee IH]; intros layer layer' Hsh; cbn [add_at3].
  { by intros [= <-]. }
  destruct (cell_of cfg e) as [[[p x] y]|]; [|done].
  apply IH. by apply shaped3_upd3.
Qed.

Lemma layers_shaped cfg rows ls :
  layers cfg rows = Ok ls →
  Forall (shaped3 (size_C cfg) (size_H cfg) (size_W cfg)) ls.
Proof.
  revert ls. induction rows as [|ee rows IH]; intros ls; cbn [layers].
  { intros [= <-]. constructor. }
  destruct (layer_of cfg ee) as [l|] eqn:Hl; [cbn|done].
  destruct (layers cfg rows) as [ls'|]; [cbn|done].
  intros [= <-]. constructor; [|by apply IH].
  eapply add_at3_shaped; [apply shaped3_zeros|exact Hl].
Qed.

(** What [binning] returns has [T] layers of shape [size]. *)
Lemma binning_shape target cfg tmad out :
  binning target cfg tmad = Ok out →
  length out = T cfg ∧
  Forall (shaped3 (size_C cfg) (size_H cfg) (size_W cfg)) out.
Proof.
  intros Hout. pose proof (binning_ok_nonempty _ _ _ _ Hout) as Hne.
  rewrite (binning_layers cfg target tmad Hne) in Hout. split.
  - rewrite (layers_length _ _ _ Hout), length_fmap, length_bin_slices.
    apply length_seq.
  - by eapply layers_shaped.
Qed.

(** X5: whenever [ToCountFrame] returns, the tensor has exactly [T] layers,
    each of shape (C, H, W) = [size], whatever the events. *)
Theorem ToCountFrame_shape (cfg : BinCfg) (tmad : list Event) (out : Tensor4) :
  ToCountFrame cfg tmad = Ok out →
  length out = T cfg ∧
  Forall (shaped3 (size_C cfg) (size_H cfg) (size_W cfg)) out.
Proof. apply binning_shape. Qed.

Lemma ToCountFrame_shape_witness :
  ToCountFrame (cfg111 3) tmad_mid = Ok [[[[0]]]; [[[1]]]; [[[0]]]] ∧
  length [[[[0]]]; [[[1]]]; [[[0]]]] = T (cfg111 3) ∧
  Forall (shaped3 (size_C (cfg111 3)) (size_H (cfg111 3)) (size_W (cfg111 3)))
    [[[[0]]]; [[[1]]]; [[[0]]]].
Proof.
  split; [reflexivity|].
  apply (ToCountFrame_shape (cfg111 3) tmad_mid). reflexivity.
Defined.

Lemma Forall_zip_with_both {A B C} (f : A → B → C) (P : A → Prop) (Q : B → Prop)
  (R : C → Prop) (l1 : list A) (l2 : list B) :
  Forall P l1 → Forall Q l2 → (∀ a b, P a → Q b → R (f a b)) →
  Forall R (zip_with f l1 l2).
Proof.
  intros H1. revert l2.
  induction H1 as [|a l1 Ha _ IH]; intros [|b l2] H2 HR; cbn; try constructor.
  - apply Forall_cons in H2 as [Hb _]. by apply HR.
  - apply Forall_cons in H2 as [_ H2]. by apply IH.
Qed.

Lemma add3_shaped C H W (a b : Tensor3) :
  shaped3 C H W a → shaped3 C H W b → shaped3 C H W (add3 a b).
Proof.
  intros [Hla Ha] [Hlb Hb]. unfold shaped3, add3. split.
  { rewrite length_zip_with. lia. }
  eapply Forall_zip_with_both; [exact Ha|exact Hb|].
  intros m1 m2 [Hl1 H1] [Hl2 H2]. split.
  { rewrite length_zip_with. lia. }
  eapply Forall_zip_with_both; [exact H1|exact H2|].
  intros r1 r2 Hr1 Hr2. cbn in *. rewrite length_zip_with. lia.
Qed.

Lemma sum_axis0_shaped cfg (chunks : Tensor4) :
  Forall (shaped3 (size_C cfg) (size_H cfg) (size_W cfg)) chunks →
  shaped3 (size_C cfg) (size_H cfg) (size_W cfg)
    (foldr add3 (zeros3 (size_C cfg) (size_H cfg) (size_W cfg)) chunks).
Proof.
  induction 1 as [|l chunks Hl _ IH]; cbn; [apply shaped3_zeros|].
  by apply add3_shaped.
Qed.

(** X6: whenever [ToEventSum] returns, the result is a single layer of
    shape (C, H, W): the time axis is kept with length 1, also when
    [T = 0]. *)
Theorem ToEventSum_shape (cfg : BinCfg) (tmad : list Event) (out : Tensor4) :
  ToEventSum cfg tmad = Ok out →
  ∃ l, out = [l] ∧ shaped3 (size_C cfg) (size_H cfg) (size_W cfg) l.
Proof.
  unfold ToEventSum, ToEventSum_chunks.
  destruct (binning _ cfg tmad) as [chunks|] eqn:Hb; [cbn|done].
  intros [= <-]. eexists. split; [done|].
  apply sum_axis0_shaped. by destruct (binning_shape _ _ _ _ Hb).
Qed.

Lemma ToEventSum_shape_witness :
  ToEventSum (cfg111 0) tmad_mid = Ok [[[[0]]]] ∧
  ∃ l, [[[[0]]]] = [l]
       ∧ shaped3 (size_C (cfg111 0)) (size_H (cfg111 0)) (size_W (cfg111 0)) l.
Proof.
  split; [reflexivity|].
  apply (ToEventSum_shape (cfg111 0) tmad_mid). reflexivity.
Defined.

Lemma get3_add3 (a b : Tensor3) p x y va vb :
  get3 a p x y = Some va → get3 b p x y = Some vb →
  get3 (add3 a b) p x y = Some (va + vb).
Proof.
  unfold get3, add3. intros Ha Hb.
  destruct (a !! p) as [a2|] eqn:Ha2; [cbn in Ha|done].
  destruct (b !! p) as [b2|] eqn:Hb2; [cbn in Hb|done].
  destruct (a2 !! x) as [a1|] eqn:Ha1; [cbn in Ha|done].
  destruct (b2 !! x) as [b1|] eqn:Hb1; [cbn in Hb|done].
  rewrite lookup_zip_with, Ha2, Hb2. cbn.
  rewrite lookup_zip_with, Ha1, Hb1. cbn.
  rewrite lookup_zip_with, Ha, Hb. done.
Qed.

(** A cell of the sum over time of independently scattered layers. *)
Lemma layers_sum_cell cfg rows ls p x y :
  (p < size_C cfg)%nat → (x < size_H cfg)%nat → (y < size_W cfg)%nat →
  layers cfg rows = Ok ls →
  get3 (foldr add3 (zeros3 (size_C cfg) (size_H cfg) (size_W cfg)) ls) p x y
  = Some (foldr Z.add 0
      ((λ ee, wrap8 (Z.of_nat (cell_count cfg ee (Some (p, x, y))))) <$> rows)).
Proof.
  intros Hp Hx Hy. revert ls.
  induction rows as [|ee rows IH]; intros ls; cbn [layers].
  { intros [= <-]. cbn. by apply get3_zeros. }
  destruct (layer_of cfg ee) as [l|] eqn:Hl; [cbn|done].
  destruct (layers cfg rows) as [ls'|]; [cbn|done].
  intros [= <-]. cbn [foldr]. apply get3_add3; [|by apply IH].
  rewrite <-(Z.add_0_l (Z.of_nat _)).
  eapply (add_at3_cell cfg ee p x y); [|exact Hl].
  by apply get3_zeros.
Qed.

(** X7: on ascending timestamps, each cell of the image [ToEventSum]
    returns is the sum over the bins of the number of events of that bin
    addressing the cell, each bin's count wrapped to [int8] before the
    sum; the bin of an event is the one [EventSum_bin] gives. *)
Theorem ToEventSum_cell (cfg : BinCfg) (tmad : list Event) (out : Tensor4) :
  is_sorted (map ev_t tmad) = true →
  ToEventSum cfg tmad = Ok out →
  ∀ p x y,
    (p < size_C cfg)%nat → (x < size_H cfg)%nat → (y < size_W cfg)%nat →
    get4 out 0 p x y
    = Some (foldr Z.add 0
        ((λ i, wrap8 (Z.of_nat (length
            (filter (λ e, cell_of cfg e = Some (p, x, y)
                          ∧ EventSum_bin (T cfg) (ev_t e) = Some i) tmad))))
         <$> seq 0 (T cfg))).
Proof.
  intros Hs Hout p x y Hp Hx Hy. unfold ToEventSum in Hout.
  destruct (ToEventSum_chunks cfg tmad) as [chunks|] eqn:Hc; [cbn in Hout|done].
  injection Hout as <-.
  assert (Hne : tmad ≠ []) by (by eapply binning_ok_nonempty).
  rewrite (EventSum_layers cfg tmad Hs Hne) in Hc.
  unfold sum_axis0, get4. cbn [lookup list_lookup mbind option_bind].
  change (?l !! p ≫= λ l2, l2 !! x ≫= λ l1, l1 !! y) with (get3 l p x y).
  rewrite (layers_sum_cell cfg _ chunks p x y Hp Hx Hy Hc).
  rewrite <-list_fmap_compose. do 2 f_equal. apply list_fmap_ext.
  intros k i _. cbn. unfold cell_count. by rewrite list_filter_filter.
Qed.

Lemma ToEventSum_cell_witness :
  is_sorted (map ev_t tmad3) = true ∧
  ToEventSum cfg322 tmad3 = Ok [[[[1; 0]; [0; 0]]; [[0; 0]; [1; 0]]]] ∧
  ∀ p x y,
    (p < size_C cfg322)%nat → (x < size_H cfg322)%nat → (y < size_W cfg322)%nat →
    get4 [[[[1; 0]; [0; 0]]; [[0; 0]; [1; 0]]]] 0 p x y
    = Some (foldr Z.add 0
        ((λ i, wrap8 (Z.of_nat (length
            (filter (λ e, cell_of cfg322 e = Some (p, x, y)
                          ∧ EventSum_bin (T cfg322) (ev_t e) = Some i) tmad3))))
         <$> seq 0 (T cfg322))).
Proof.
  split; [reflexivity|]. split; [reflexivity|].
  apply (ToEventSum_cell cfg322 tmad3); reflexivity.
Defined.

Lemma is_sorted_app_l a b : is_sorted (a ++ b) = true → is_sorted a = true.
Proof.
  induction a as [|v a IH]; cbn [app is_sorted]; [done|].
  intros [Hv Hs]%andb_prop. rewrite (IH Hs), andb_true_r.
  rewrite forallb_app in Hv. by apply andb_prop in Hv as [-> _].
Qed.

(** X8: events after the last bin are never looked at.  Appending to a
    non-empty event list rows with timestamps at or beyond [T] (keeping the
    list ascending) changes neither what [ToCountFrame] nor what
    [ToEventSum] returns or raises, whatever addresses those rows carry. *)
Theorem binners_ignore_late_events (cfg : BinCfg) (tmad late : list Event) :
  tmad ≠ [] →
  is_sorted (map ev_t (tmad ++ late)) = true →
  Forall (λ e, Z.of_nat (T cfg) ≤ ev_t e) late →
  ToCountFrame cfg (tmad ++ late) = ToCountFrame cfg tmad
  ∧ ToEventSum cfg (tmad ++ late) = ToEventSum cfg tmad.
Proof.
  intros Hne Hs Hlate.
  assert (Hs' : is_sorted (map ev_t tmad) = true).
  { rewrite map_app in Hs. by eapply is_sorted_app_l. }
  assert (Hne' : tmad ++ late ≠ []) by (by destruct tmad).
  split.
  - rewrite (CountFrame_layers cfg _ Hs Hne'), (CountFrame_layers cfg _ Hs' Hne).
    f_equal. apply list_fmap_ext. intros k i _. cbn.
    rewrite filter_app, (filter_none _ late), app_nil_r; [done|].
    eapply Forall_impl; [exact Hlate|]. cbn. intros e He. unfold CountFrame_bin.
    destruct (Z.ltb_spec (ev_t e) (Z.of_nat (T cfg))); [lia|done].
  - unfold ToEventSum.
    rewrite (EventSum_layers cfg _ Hs Hne'), (EventSum_layers cfg _ Hs' Hne).
    do 2 f_equal. apply list_fmap_ext. intros k i _. cbn.
    rewrite filter_app, (filter_none _ late), app_nil_r; [done|].
    eapply Forall_impl; [exact Hlate|]. cbn. intros e He. unfold EventSum_bin.
    destruct (Z.ltb_spec (ev_t e) 0); [lia|]. cbn.
    destruct (Z.leb_spec 0 (ev_t e)); [|lia]. cbn.
    destruct (Z.ltb_spec (ev_t e + 1) (Z.of_nat (T cfg))); [lia|done].
Qed.

Lemma binners_ignore_late_events_witness :
  tmad_mid ≠ [] ∧
  is_sorted (map ev_t (tmad_mid ++ [mkEvent 3 7 7 7])) = true ∧
  Forall (λ e, Z.of_nat (T (cfg111 3)) ≤ ev_t e) [mkEvent 3 7 7 7] ∧
  ToCountFrame (cfg111 3) (tmad_mid ++ [mkEvent 3 7 7 7])
  = ToCountFrame (cfg111 3) tmad_mid
  ∧ ToEventSum (cfg111 3) (tmad_mid ++ [mkEvent 3 7 7 7])
    = ToEventSum (cfg111 3) tmad_mid.
Proof.
  split; [discriminate|]. split; [reflexivity|].
  assert (Hlate : Forall (λ e, Z.of_nat (T (cfg111 3)) ≤ ev_t e) [mkEvent 3 7 7 7]).
  { constructor; [cbn; lia|constructor]. }
  split; [exact Hlate|].
  apply (binners_ignore_late_events (cfg111 3) tmad_mid [mkEvent 3 7 7 7]);
    [discriminate|reflexivity|exact Hlate].
Defined.

(** * More on the crops *)

(** ** [CropDims] in closed form *)


Section crop_dims_closed.
Context (cfg : CropDimsCfg).



End crop_dims_closed.



(** ** The order of the timestamps *)

Lemma is_sorted_map_filter (f : Event → Event) (P : Event → Prop)
    `{!∀ e, Decision (P e)} (a : list Event) :
  (∀ e1 e2, ev_t e1 ≤ ev_t e2 → ev_t (f e1) ≤ ev_t (f e2)) →
  is_sorted (map ev_t a) = true →
  is_sorted (map ev_t (map f (filter P a))) = true.
Proof.
  intros Hf. induction a as [|e a IH]; [done|]. cbn [map is_sorted].
  intros [He Hs]%andb_prop. destruct (decide (P e)).
  - rewrite filter_cons_True by done. cbn [map is_sorted].
    rewrite (IH Hs), andb_true_r. apply forallb_forall.
    intros t Ht. apply in_map_iff in Ht as (e' & <- & He').
    apply in_map_iff in He' as (e'' & <- & He'').
    apply list_elem_of_In, list_elem_of_filter in He'' as [_ He''].
    apply Z.leb_le, Hf, Z.leb_le.
    rewrite forallb_forall in He. apply He, in_map, list_elem_of_In, He''.
  - rewrite filter_cons_False by done. by apply IH.
Qed.


Lemma floordiv64_nonneg x k : 0 ≤ k → floordiv64 x k = x / k.
Proof.
  intros Hk. unfold floordiv64.
  destruct (Z.eqb_spec k (-1)); [lia|]. by rewrite andb_false_r.
Qed.



(** ** Which object a crop returns *)

Lemma CropDims_loop_fresh cfg ids : ∀ l h a,
  h !! l = Some a →
  match CropDims_loop cfg ids l h with
  | (Ok l', _) => match ids with [] => l' = l | _ => (length h ≤ l')%nat end
  | (Raise _, _) => True
  end.
Proof.
  induction ids as [|[i d] ids IH]; intros l h a Hl; [done|].
  cbn [CropDims_loop].
  rewrite (run_read _ _ _ _ Hl).
  destruct (column_rows d a) as [Hc|Hc]; rewrite Hc; [|done].
  rewrite run_lift_ok.
  destruct (item (high_crop cfg) i) as [hi|e]; [|done].
  rewrite run_lift_ok, run_new, (run_read _ _ _ _ (lookup_new _ _)).
  rewrite map_map, np_delete_where.
  set (a1 := filter _ a).
  destruct (column_rows d a1) as [Hc1|Hc1]; [|unfold column in *;
    destruct (d <? 4)%nat; done].
  rewrite Hc1, run_lift_ok.
  destruct (item (low_crop cfg) i) as [lo|e]; [|done].
  rewrite run_lift_ok, run_new, (run_read _ _ _ _ (lookup_new _ _)).
  rewrite map_map, np_delete_where.
  set (a2 := filter _ a1).
  destruct (column_rows d a2) as [Hc2|Hc2]; [|unfold column in *;
    destruct (d <? 4)%nat; done].
  rewrite Hc2, !run_lift_ok, run_write, set_column_rows, insert_new.
  set (a3 := map _ a2).
  specialize (IH (length (h ++ [a1])) ((h ++ [a1]) ++ [a3]) a3 (lookup_new _ _)).
  destruct (CropDims_loop cfg ids _ _) as [[l'|e] h'']; [|done].
  rewrite !length_app in IH. cbn [length] in IH.
  destruct ids; [subst l'|]; lia.
Qed.

(** X11: the array [CropDims] returns is an object that did not exist
    before the call, so that the in-place rebase never reaches the caller's
    array; only with no dimension configured it is the very object it was
    given. *)
Theorem CropDims_result_is_fresh (cfg : CropDimsCfg) (h h' : heap) (l l' : loc)
    (a : list Event) :
  h !! l = Some a →
  CropDims cfg l h = (Ok l', h') →
  (dims cfg = [] → l' = l ∧ h' = h)
  ∧ (dims cfg ≠ [] → (length h ≤ l')%nat ∧ l' ≠ l).
Proof.
  intros Hl Hrun. split.
  - intros Hd. unfold CropDims in Hrun. rewrite Hd in Hrun. cbn in Hrun.
    by injection Hrun as <- <-.
  - intros Hd.
    pose proof (CropDims_loop_fresh cfg (enumerate (dims cfg)) l h a Hl) as Hf.
    unfold CropDims in Hrun. rewrite Hrun in Hf.
    apply lookup_lt_Some in Hl.
    destruct (dims cfg) as [|d ds]; [done|]. cbn in Hf. lia.
Qed.

Lemma CropDims_result_is_fresh_witness :
  [[mkEvent 0 0 7 0]] !! 0%nat = Some [mkEvent 0 0 7 0] ∧
  CropDims cfg_crop 0%nat [[mkEvent 0 0 7 0]]
  = (Ok 2%nat, [[mkEvent 0 0 7 0]; [mkEvent 0 0 7 0]; [mkEvent 0 0 2 0]]) ∧
  (dims cfg_crop = []
   → 2%nat = 0%nat
     ∧ [[mkEvent 0 0 7 0]; [mkEvent 0 0 7 0]; [mkEvent 0 0 2 0]]
       = [[mkEvent 0 0 7 0]])
  ∧ (dims cfg_crop ≠ []
     → (length [[mkEvent 0 0 7 0]] ≤ 2)%nat ∧ 2%nat ≠ 0%nat).
Proof.
  split; [reflexivity|]. split; [reflexivity|].
  apply (CropDims_result_is_fresh cfg_crop [[mkEvent 0 0 7 0]] _ 0%nat 2%nat
           [mkEvent 0 0 7 0]); reflexivity.
Defined.

(** ** [CropCenter] *)

Lemma CropCenter_returns (cfg : CropCenterCfg) (h : heap) (l : loc)
    (a : list Event) :
  h !! l = Some a →
  ∃ l' h' out, CropCenter cfg l h = (Ok l', h') ∧
    h' !! l' = Some out ∧ l' ≠ l ∧
    h' !! l = Some (map (translate (translation cfg)) a) ∧
    out = filter (λ e, 0 ≤ ev_x e < fst (att_shape cfg)
                       ∧ 0 ≤ ev_y e < snd (att_shape cfg))
            (map (translate (translation cfg)) a).
Proof.
  intros Hl. destruct (CropCenter_run cfg l h a Hl) as [a1 Hrun].
  assert (Hlt : (l < length h)%nat) by (by eapply lookup_lt_Some).
  eexists _, _, (CropCenter_rows cfg a). split; [exact Hrun|]. split_and!.
  - rewrite lookup_app_r; rewrite length_insert; [|lia].
    by replace (S (length h) - length h)%nat with 1%nat by lia.
  - lia.
  - rewrite lookup_app_l by (rewrite length_insert; lia).
    by apply list_lookup_insert_eq.
  - unfold CropCenter_rows, crop_rows. rewrite list_filter_filter.
    apply list_filter_iff. intros e.
    rewrite !orb_false_iff, !Z.ltb_ge, !Z.leb_gt. lia.
Qed.



Lemma cfg_center_init : CropCenter_init (3, 3) (2, 4, 4) = Ok cfg_center.
Proof. reflexivity. Qed.

Lemma in_uint32_true z : 0 ≤ z < 2 ^ 32 → in_uint32 z = true.
Proof.
  intros Hz. unfold in_uint32.
  destruct (Z.leb_spec 0 z); [|lia]. destruct (Z.ltb_spec z (2 ^ 32)); [done|lia].
Qed.

(** X13: a centre closer to the low border than half the window makes
    [CropCenter] drop every event of an array of signed 64-bit integers.  For
    a centre and a size that [__init__] accepts (entries in the range of
    [uint32]) with [0 <= cx < H // 2], the translation [center - size // 2] is
    negative and is stored as [uint32], that is [2^32] larger; subtracted from
    coordinates below [2^31] it leaves them negative, and the crop removes
    them all. *)
Theorem CropCenter_empty_near_border (cx cy C H W : Z) (h : heap) (l : loc)
    (a : list Event) :
  h !! l = Some a →
  0 ≤ H < 2 ^ 32 →
  0 ≤ W < 2 ^ 32 →
  0 ≤ cx < H / 2 →
  0 ≤ cy < 2 ^ 32 →
  Forall (λ e, ev_x e < 2 ^ 31) a →
  ∃ cfg l' h', CropCenter_init (cx, cy) (C, H, W) = Ok cfg
               ∧ CropCenter cfg l h = (Ok l', h')
               ∧ h' !! l' = Some [].
Proof.
  intros Hl HH HW Hcx Hcy Hx.
  assert (Hcx32 : 0 ≤ cx < 2 ^ 32).
  { change (2 ^ 32) with 4294967296 in *. Z.div_mod_to_equations. lia. }
  unfold CropCenter_init. cbn [fst snd].
  rewrite !in_uint32_true by done. cbn [andb].
  eexists. 
  destruct (CropCenter_returns
              (mkCropCenterCfg (cx, cy) (H, W)
                 (uint32 (cx - H / 2), uint32 (cy - W / 2))) h l a Hl)
    as (l' & h' & out & Hrun & Hout & _ & _ & ->).
  exists l', h'. split; [done|]. split; [done|]. rewrite Hout. f_equal.
  apply filter_none, Forall_fmap. eapply Forall_impl; [exact Hx|].
  intros e He. cbn. unfold uint32.
  change (2 ^ 32) with 4294967296 in *. change (2 ^ 31) with 2147483648 in *.
  rewrite <-(Z.mod_add (cx - H / 2) 1) by lia.
  cbn in He.
  rewrite (Z.mod_small (cx - H / 2 + 1 * 4294967296))
    by (Z.div_mod_to_equations; lia).
  intros [Hneg _]. revert Hneg. Z.div_mod_to_equations. lia.
Qed.

Lemma CropCenter_empty_near_border_witness :
  [[mkEvent 0 0 2 2; mkEvent 1 0 7 2]] !! 0%nat
  = Some [mkEvent 0 0 2 2; mkEvent 1 0 7 2] ∧
  0 ≤ 4 < 2 ^ 32 ∧
  0 ≤ 4 < 2 ^ 32 ∧
  0 ≤ 1 < 4 / 2 ∧
  0 ≤ 3 < 2 ^ 32 ∧
  Forall (λ e, ev_x e < 2 ^ 31) [mkEvent 0 0 2 2; mkEvent 1 0 7 2] ∧
  ∃ cfg l' h',
    CropCenter_init (1, 3) (2, 4, 4) = Ok cfg
    ∧ CropCenter cfg 0%nat [[mkEvent 0 0 2 2; mkEvent 1 0 7 2]] = (Ok l', h')
    ∧ h' !! l' = Some [].
Proof.
  assert (HH : 0 ≤ 4 < 2 ^ 32) by (cbn; lia).
  assert (Hcx : 0 ≤ 1 < 4 / 2) by (change (4 / 2) with 2; lia).
  assert (Hcy : 0 ≤ 3 < 2 ^ 32) by (cbn; lia).
  assert (Hx : Forall (λ e, ev_x e < 2 ^ 31) [mkEvent 0 0 2 2; mkEvent 1 0 7 2]).
  { repeat constructor; cbn; lia. }
  split; [reflexivity|]. split; [exact HH|]. split; [exact HH|].
  split; [exact Hcx|]. split; [exact Hcy|]. split; [exact Hx|].
  apply (CropCenter_empty_near_border 1 3 2 4 4
           [[mkEvent 0 0 2 2; mkEvent 1 0 7 2]] 0%nat
           [mkEvent 0 0 2 2; mkEvent 1 0 7 2]);
    [reflexivity|exact HH|exact HH|exact Hcx|exact Hcy|exact Hx].
Defined.

(** * How the transforms compose *)

Lemma in_int64_true z : - 2 ^ 63 ≤ z < 2 ^ 63 → in_int64 z = true.
Proof.
  intros Hz. unfold in_int64.
  destruct (Z.leb_spec (- 2 ^ 63) z); [|lia].
  destruct (Z.ltb_spec z (2 ^ 63)); [done|lia].
Qed.

(** X14: downsampling twice by positive integer factors is downsampling
    once by their product, as long as the product is in the range of
    [int64]: the second call returns the rows that one call with [k1 * k2]
    returns. *)
Theorem Downsample_compose (k1 k2 : Z) (h : heap) (l : loc) (a : list Event) :
  h !! l = Some a →
  0 < k1 → 0 < k2 → k1 * k2 < 2 ^ 63 →
  ∃ l2 h2 l3 h3 out,
    (Downsample (FInt k1) l ≫= Downsample (FInt k2)) h = (Ok l2, h2) ∧
    Downsample (FInt (k1 * k2)) l h = (Ok l3, h3) ∧
    h2 !! l2 = Some out ∧ h3 !! l3 = Some out.
Proof.
  intros Hl Hk1 Hk2 Hk.
  assert (H1 : in_int64 k1 = true) by (apply in_int64_true; nia).
  assert (H2 : in_int64 k2 = true) by (apply in_int64_true; nia).
  assert (H12 : in_int64 (k1 * k2) = true) by (apply in_int64_true; nia).
  rewrite run_bind, (Downsample_run _ l h a Hl). cbn [Downsample_rows].
  rewrite H1.
  rewrite (Downsample_run _ _ _ _ (lookup_new h _)). cbn [Downsample_rows].
  rewrite H2.
  rewrite (Downsample_run _ l h a Hl). cbn [Downsample_rows].
  rewrite H12.
  eexists _, _, _, _, _. split; [done|]. split; [done|].
  split; [apply lookup_new|].
  rewrite lookup_new. f_equal. rewrite map_map. apply map_ext.
  intros e. unfold floordiv_row. cbn.
  rewrite !floordiv64_nonneg by lia. by rewrite !Z.div_div by lia.
Qed.

Lemma Downsample_compose_witness :
  [[mkEvent 10 3 4 5]] !! 0%nat = Some [mkEvent 10 3 4 5] ∧
  0 < 2 ∧ 0 < 3 ∧ 2 * 3 < 2 ^ 63 ∧
  ∃ l2 h2 l3 h3 out,
    (Downsample (FInt 2) 0%nat ≫= Downsample (FInt 3)) [[mkEvent 10 3 4 5]]
    = (Ok l2, h2) ∧
    Downsample (FInt (2 * 3)) 0%nat [[mkEvent 10 3 4 5]] = (Ok l3, h3) ∧
    h2 !! l2 = Some out ∧ h3 !! l3 = Some out.
Proof.
  split; [reflexivity|]. split; [lia|]. split; [lia|]. split; [cbn; lia|].
  apply (Downsample_compose 2 3 [[mkEvent 10 3 4 5]] 0%nat [mkEvent 10 3 4 5]);
    [reflexivity|lia|lia|cbn; lia].
Defined.





(** * More on the labels *)

Section one_hot.
Implicit Types (row idx : list Z) (index : list (list Z)).

Lemma scatter_row_returns idx : ∀ row,
  (∃ row', scatter_row row idx = Ok row')
  ↔ Forall (λ k, 0 ≤ k < Z.of_nat (length row)) idx.
Proof.
  induction idx as [|k idx IH]; intros row; cbn [scatter_row].
  { split; [constructor|by eexists]. }
  rewrite Forall_cons.
  destruct (Z.leb_spec 0 k), (Z.ltb_spec k (Z.of_nat (length row))); cbn.
  - rewrite IH, length_insert. split; [by split|by intros [_ ?]].
  - split; [by intros [? ?]|intros [? _]; lia].
  - split; [by intros [? ?]|intros [? _]; lia].
  - split; [by intros [? ?]|intros [? _]; lia].
Qed.

Lemma scatter_row_raises idx : ∀ row e,
  scatter_row row idx = Raise e → e = RuntimeError.
Proof.
  induction idx as [|k idx IH]; intros row e; cbn [scatter_row]; [done|].
  destruct (_ && _); [apply IH|by intros [= <-]].
Qed.

Lemma scatter_row_cells idx : ∀ row row',
  scatter_row row idx = Ok row' →
  length row' = length row ∧
  ∀ j, (j < length row)%nat →
    row' !! j = if decide (Z.of_nat j ∈ idx) then Some 1 else row !! j.
Proof.
  induction idx as [|k idx IH]; intros row row'; cbn [scatter_row].
  { intros [= <-]. split; [done|]. intros j _.
    destruct (decide _) as [Hin|]; [by apply elem_of_nil in Hin|done]. }
  destruct (Z.leb_spec 0 k), (Z.ltb_spec k (Z.of_nat (length row))); cbn; try done.
  intros Hrow. destruct (IH _ _ Hrow) as [Hlen Hcells].
  rewrite length_insert in Hlen, Hcells. split; [done|].
  intros j Hj. rewrite (Hcells j Hj).
  destruct (decide (Z.of_nat j ∈ idx)) as [Hin|Hnin].
  - rewrite decide_True; [done|by right].
  - destruct (decide (j = Z.to_nat k)) as [->|Hne].
    + rewrite list_lookup_insert_eq by lia.
      rewrite decide_True; [done|]. rewrite Z2Nat.id by lia. by left.
    + rewrite list_lookup_insert_ne by done.
      rewrite decide_False; [done|].
      intros [Heq|?]%elem_of_cons; [|done]. subst k.
      by rewrite Nat2Z.id in Hne.
Qed.

Lemma scatter_rows_returns n index :
  (∃ out, scatter_rows (replicate (length index) (replicate n 0)) index = Ok out)
  ↔ Forall (Forall (λ k, 0 ≤ k < Z.of_nat n)) index.
Proof.
  induction index as [|idx index IH]; cbn [length replicate scatter_rows].
  { split; [constructor|by eexists]. }
  rewrite Forall_cons, <-IH.
  pose proof (scatter_row_returns idx (replicate n 0)) as Hrow.
  rewrite length_replicate in Hrow. rewrite <-Hrow.
  destruct (scatter_row (replicate n 0) idx) as [row'|]; cbn.
  - destruct (scatter_rows _ index) as [rest|]; cbn.
    + split; [intros _; split; by eexists|by eexists].
    + split; [by intros [? ?]|by intros [_ [? ?]]].
  - split; [by intros [? ?]|by intros [[? ?] _]].
Qed.

Lemma scatter_rows_raises index : ∀ self e,
  length self = length index →
  scatter_rows self index = Raise e → e = RuntimeError.
Proof.
  induction index as [|idx index IH]; intros [|row self] e; cbn; try done.
  intros [= Hlen].
  destruct (scatter_row row idx) as [row'|e'] eqn:Hrow; cbn.
  - destruct (scatter_rows self index) as [rest|e''] eqn:Hrest; cbn; [done|].
    intros [= <-]. by eapply IH.
  - intros [= <-]. by eapply scatter_row_raises.
Qed.

Lemma scatter_rows_cells n : ∀ index out,
  scatter_rows (replicate (length index) (replicate n 0)) index = Ok out →
  length out = length index ∧
  ∀ i idx row, index !! i = Some idx → out !! i = Some row →
    length row = n ∧
    ∀ j, (j < n)%nat →
      row !! j = Some (if decide (Z.of_nat j ∈ idx) then 1 else 0).
Proof.
  induction index as [|idx0 index IH]; intros out;
    cbn [length replicate scatter_rows].
  { intros [= <-]. split; [done|]. by intros i idx row Hi. }
  destruct (scatter_row (replicate n 0) idx0) as [row'|] eqn:Hrow; [cbn|done].
  destruct (scatter_rows _ index) as [rest|] eqn:Hrest; [cbn|done].
  intros [= <-]. destruct (IH rest eq_refl) as [Hlen Hcells].
  split; [cbn; by rewrite Hlen|].
  intros [|i] idx row; cbn.
  - intros [= <-] [= <-].
    destruct (scatter_row_cells _ _ _ Hrow) as [Hl Hc].
    rewrite length_replicate in Hl, Hc. split; [done|].
    intros j Hj. rewrite (Hc j Hj), lookup_replicate_2 by done.
    by destruct (decide _).
  - apply Hcells.
Qed.
End one_hot.

(** X16: on labels of two axes, [toOneHot] returns exactly when every
    label is in [0, num_classes), and raises [RuntimeError] otherwise.  What
    it returns has one row of [num_classes] entries per row of labels, with 1
    at the indices named in that row of labels and 0 elsewhere: a row with
    several labels gets several ones. *)
Theorem toOneHot_multi_hot (num_classes : nat) (labels : list (list Z)) :
  ((∃ out, toOneHot num_classes (Arr2 labels) = Ok out)
   ↔ Forall (Forall (λ k, 0 ≤ k < Z.of_nat num_classes)) labels)
  ∧ (∀ e, toOneHot num_classes (Arr2 labels) = Raise e → e = RuntimeError)
  ∧ ∀ out, toOneHot num_classes (Arr2 labels) = Ok out →
      length out = length labels ∧
      ∀ i idx row, labels !! i = Some idx → out !! i = Some row →
        length row = num_classes ∧
        ∀ j, (j < num_classes)%nat →
          row !! j = Some (if decide (Z.of_nat j ∈ idx) then 1 else 0).
Proof.
  unfold toOneHot. cbn [shape0 scatter_1]. split_and!.
  - apply scatter_rows_returns.
  - intros e. apply scatter_rows_raises. by rewrite length_replicate.
  - apply scatter_rows_cells.
Qed.

Lemma concat_replicate_singleton {A} (n : nat) (x : A) :
  concat (replicate n [x]) = replicate n x.
Proof. induction n as [|n IH]; [done|]. cbn. by rewrite IH. Qed.

(** X17: [Repeat] followed by [toOneHot], the way labels are turned into
    target sequences: a scalar label [k] below [num_classes] becomes
    [n_repeat] rows, each of [num_classes] entries with 1 at index [k] and 0
    elsewhere. *)
Theorem Repeat_then_toOneHot (n_repeat num_classes k : nat) :
  (k < num_classes)%nat →
  Repeat n_repeat (Scalar (Z.of_nat k)) = Arr2 (replicate n_repeat [Z.of_nat k])
  ∧ toOneHot num_classes (Repeat n_repeat (Scalar (Z.of_nat k)))
    = Ok (replicate n_repeat (<[k := 1]> (replicate num_classes 0))).
Proof.
  intros Hk.
  assert (Hrep : Repeat n_repeat (Scalar (Z.of_nat k))
                 = Arr2 (replicate n_repeat [Z.of_nat k])).
  { unfold Repeat. cbn. by rewrite concat_replicate_singleton. }
  split; [done|]. rewrite Hrep. unfold toOneHot. cbn [shape0 scatter_1].
  rewrite length_replicate.
  induction n_repeat as [|n IH]; [done|]. cbn [replicate scatter_rows].
  rewrite scatter_row_single by (by rewrite length_replicate). cbn.
  rewrite IH; [done|]. unfold Repeat. cbn. by rewrite concat_replicate_singleton.
Qed.

Lemma Repeat_then_toOneHot_witness :
  (2 < 3)%nat ∧
  Repeat 2 (Scalar (Z.of_nat 2)) = Arr2 (replicate 2 [Z.of_nat 2])
  ∧ toOneHot 3 (Repeat 2 (Scalar (Z.of_nat 2)))
    = Ok (replicate 2 (<[2%nat := 1]> (replicate 3 0))).
Proof. split; [lia|]. apply (Repeat_then_toOneHot 2 3 2). lia. Defined.

(** * [ToChannelHeightWidth] *)

Lemma column_stack_rows (rows : list (list Z)) :
  zip_with (λ r z, r ++ [z; z]) rows (replicate (length rows) 0)
  = map (λ r, r ++ [0; 0]) rows.
Proof. induction rows as [|r rows IH]; [done|]. cbn. by rewrite IH. Qed.

(** X18: [ToChannelHeightWidth] returns exactly for arrays of 2 or 4
    columns and raises [TypeError] for any other width.  What it returns has
    4 columns and the rows of the argument, each followed by zeros up to that
    width, and is left as it is by a second application. *)
Theorem ToChannelHeightWidth_columns (tmad : Array2) :
  well_formed tmad →
  match ToChannelHeightWidth tmad with
  | Ok out =>
      (ncols tmad = 2%nat ∨ ncols tmad = 4%nat) ∧
      ncols out = 4%nat ∧ well_formed out ∧
      arows out
      = map (λ r, r ++ replicate (4 - ncols tmad) 0) (arows tmad) ∧
      ToChannelHeightWidth out = Ok out
  | Raise e => e = TypeError ∧ ncols tmad ≠ 2%nat ∧ ncols tmad ≠ 4%nat
  end.
Proof.
  intros Hwf. unfold ToChannelHeightWidth.
  destruct (Nat.eqb_spec (ncols tmad) 2) as [H2|H2].
  - rewrite column_stack_rows, H2. cbn [ncols arows]. split_and!; try done.
    + by left.
    + unfold well_formed in *. cbn [ncols arows]. apply Forall_fmap.
      eapply Forall_impl; [exact Hwf|]. intros r Hr. cbn.
      rewrite length_app, Hr, H2. done.
  - destruct (Nat.eqb_spec (ncols tmad) 4) as [H4|H4]; [|done].
    split_and!; try done.
    + by right.
    + rewrite H4. cbn. rewrite <-(map_id (arows tmad)) at 1.
      apply map_ext. intros r. by rewrite app_nil_r.
    + destruct (Nat.eqb_spec (ncols tmad) 2); [done|].
      by destruct (Nat.eqb_spec (ncols tmad) 4).
Qed.

Lemma ToChannelHeightWidth_columns_witness :
  well_formed (mkArray2 2 [[5; 1]; [6; 0]]) ∧
  match ToChannelHeightWidth (mkArray2 2 [[5; 1]; [6; 0]]) with
  | Ok out =>
      (ncols (mkArray2 2 [[5; 1]; [6; 0]]) = 2%nat
       ∨ ncols (mkArray2 2 [[5; 1]; [6; 0]]) = 4%nat) ∧
      ncols out = 4%nat ∧ well_formed out ∧
      arows out
      = map (λ r, r ++ replicate (4 - ncols (mkArray2 2 [[5; 1]; [6; 0]])) 0)
          (arows (mkArray2 2 [[5; 1]; [6; 0]])) ∧
      ToChannelHeightWidth out = Ok out
  | Raise e => e = TypeError ∧ ncols (mkArray2 2 [[5; 1]; [6; 0]]) ≠ 2%nat
               ∧ ncols (mkArray2 2 [[5; 1]; [6; 0]]) ≠ 4%nat
  end.
Proof.
  assert (Hwf : well_formed (mkArray2 2 [[5; 1]; [6; 0]])).
  { repeat constructor. }
  split; [exact Hwf|].
  apply (ToChannelHeightWidth_columns (mkArray2 2 [[5; 1]; [6; 0]]) Hwf).
Defined.

(** * More on [Jitter] *)

(** X19: a jitter that is not all zero needs both shifts positive.  With
    [xs <= 0] or [ys <= 0] (and [xs], [ys], [th] not all zero)
    [np.random.randint] is asked for a number below [2 * xs] or [2 * ys] and
    raises [ValueError], whatever the tensor: a jitter along one axis only, or
    a rotation only, cannot be configured. *)
Theorem Jitter_needs_both_shifts {F} (ops : FloatOps F) (cfg : JitterCfg)
    (rng : Draws F) (data : Tensor5 F) :
  xs cfg ≠ 0 ∨ ys cfg ≠ 0 ∨ th cfg ≠ 0 →
  xs cfg ≤ 0 ∨ ys cfg ≤ 0 →
  Jitter ops cfg rng data = Raise ValueError.
Proof.
  intros Hnz Hle. unfold Jitter, randint.
  destruct (Z.eqb_spec (xs cfg) 0), (Z.eqb_spec (ys cfg) 0),
    (Z.eqb_spec (th cfg) 0); cbn [andb]; try lia;
    destruct (Z.ltb_spec 0 (2 * xs cfg)); cbn; try done;
    destruct (Z.ltb_spec 0 (2 * ys cfg)); cbn; try done; lia.
Qed.

Lemma Jitter_needs_both_shifts_witness :
  (xs (mkJitterCfg 0 2 0 (2, 32, 32)%nat) ≠ 0
   ∨ ys (mkJitterCfg 0 2 0 (2, 32, 32)%nat) ≠ 0
   ∨ th (mkJitterCfg 0 2 0 (2, 32, 32)%nat) ≠ 0) ∧
  (xs (mkJitterCfg 0 2 0 (2, 32, 32)%nat) ≤ 0
   ∨ ys (mkJitterCfg 0 2 0 (2, 32, 32)%nat) ≤ 0) ∧
  Jitter ops_th0 (mkJitterCfg 0 2 0 (2, 32, 32)%nat) (mkDraws 0 1 0) data_1234
  = Raise ValueError.
Proof.
  assert (Hnz : xs (mkJitterCfg 0 2 0 (2, 32, 32)%nat) ≠ 0
                ∨ ys (mkJitterCfg 0 2 0 (2, 32, 32)%nat) ≠ 0
                ∨ th (mkJitterCfg 0 2 0 (2, 32, 32)%nat) ≠ 0).
  { right. left. discriminate. }
  assert (Hle : xs (mkJitterCfg 0 2 0 (2, 32, 32)%nat) ≤ 0
                ∨ ys (mkJitterCfg 0 2 0 (2, 32, 32)%nat) ≤ 0).
  { left. cbn. lia. }
  split; [exact Hnz|]. split; [exact Hle|].
  apply (Jitter_needs_both_shifts ops_th0 (mkJitterCfg 0 2 0 (2, 32, 32)%nat)
           (mkDraws 0 1 0) data_1234 Hnz Hle).
Defined.

Lemma fold_result_inv {A B} (f : A → B → Result A) (P : A → Prop) (l : list B) :
  (∀ a b a', P a → f a b = Ok a' → P a') →
  ∀ a out, P a → fold_result f a l = Ok out → P out.
Proof.
  intros Hf. induction l as [|b l IH]; intros a out Ha; cbn [fold_result].
  { by intros [= <-]. }
  destruct (f a b) as [a'|] eqn:Hfa; [cbn|done].
  apply IH. by eapply Hf.
Qed.

(** X20: when a jitter that is not all zero returns, the tensor has the
    batch and time lengths of the data and the configured [size] in its last
    three axes, and each of its entries is either zero or an entry of the
    data at the same batch and time index: pixels are moved, dropped or
    duplicated, never combined. *)
Theorem Jitter_moves_pixels {F} (ops : FloatOps F) (cfg : JitterCfg)
    (rng : Draws F) (data out : Tensor5 F) :
  xs cfg ≠ 0 ∨ ys cfg ≠ 0 ∨ th cfg ≠ 0 →
  Jitter ops cfg rng data = Ok out →
  (let '(n, t, _, _, _) := shape5 data in
   let '(s0, s1, s2) := jsize cfg in
   shape5 out = (n, t, s0, s1, s2))
  ∧ ∀ n t c x y,
      at5 out n t c x y = fzero ops
      ∨ ∃ c' x' y', at5 out n t c x y = at5 data n t c' x' y'.
Proof.
  intros Hnz. unfold Jitter.
  assert (Hcond : (xs cfg =? 0) && (ys cfg =? 0) && (th cfg =? 0) = false).
  { destruct (Z.eqb_spec (xs cfg) 0), (Z.eqb_spec (ys cfg) 0),
      (Z.eqb_spec (th cfg) 0); cbn [andb]; try done; lia. }
  rewrite Hcond. clear Hcond Hnz.
  destruct (randint (2 * xs cfg) (draw_x rng)) as [rx|]; [cbn|done].
  destruct (randint (2 * ys cfg) (draw_y rng)) as [ry|]; [cbn|done].
  destruct (jsize cfg) as [[s0 s1] s2] eqn:Hsize.
  destruct (shape5 data) as [[[[n0 t0] C] X] Y] eqn:Hshape.
  apply (fold_result_inv _
    (λ j : Tensor5 F, shape5 j = (n0, t0, s0, s1, s2)
       ∧ ∀ n t c x y, at5 j n t c x y = fzero ops
           ∨ ∃ c' x' y', at5 j n t c x y = at5 data n t c' x' y'));
    [|split; [done|by left]].
  intros j [x y] j' [Hsh Hcells]. unfold Jitter_body.
  rewrite Hsize, Hshape.
  destruct (_ && _); [|done]. destruct (_ || _); [|done].
  intros [= <-]. cbn [shape5 at5]. split; [done|].
  intros bi ti ci xi yi. destruct (_ && _); [right; eauto|apply Hcells].
Qed.

Lemma Jitter_moves_pixels_witness :
  (xs cfg_jitter ≠ 0 ∨ ys cfg_jitter ≠ 0 ∨ th cfg_jitter ≠ 0) ∧
  ∃ out, Jitter ops_th0 cfg_jitter (mkDraws 1 1 0) data_1234 = Ok out ∧
    (let '(n, t, _, _, _) := shape5 data_1234 in
     let '(s0, s1, s2) := jsize cfg_jitter in
     shape5 out = (n, t, s0, s1, s2))
    ∧ ∀ n t c x y,
        at5 out n t c x y = fzero ops_th0
        ∨ ∃ c' x' y', at5 out n t c x y = at5 data_1234 n t c' x' y'.
Proof.
  assert (Hnz : xs cfg_jitter ≠ 0 ∨ ys cfg_jitter ≠ 0 ∨ th cfg_jitter ≠ 0).
  { left. discriminate. }
  split; [exact Hnz|]. eexists. split; [reflexivity|].
  apply (Jitter_moves_pixels ops_th0 cfg_jitter (mkDraws 1 1 0) data_1234 _ Hnz).
  reflexivity.
Defined.




(** * [Attention] *)

Lemma length_rolling_median n vals : length (rolling_median n vals) = length vals.
Proof. unfold rolling_median. by rewrite length_map, length_seq. Qed.




(** The frame after the re-addressing keeps the timestamps and polarities
    of the rows. *)
Lemma recentred_rows (g : Event → Z * Z → Event) (tmad : list Event) :
  (∀ e c, ev_t (g e c) = ev_t e ∧ ev_p (g e c) = ev_p e) →
  ∀ cs, length cs = length tmad →
  map ev_t (zip_with g tmad cs) = map ev_t tmad
  ∧ ∀ e, e ∈ zip_with g tmad cs →
      ∃ e0, e0 ∈ tmad ∧ ev_t e = ev_t e0 ∧ ev_p e = ev_p e0.
Proof.
  intros Hg. induction tmad as [|e0 tmad IH]; intros [|c cs] Hlen; try done.
  { split; [done|]. by intros e He%elem_of_nil. }
  destruct (IH cs) as [Ht Hin]; [by injection Hlen|].
  destruct (Hg e0 c) as [Hgt Hgp]. cbn. split; [by rewrite Ht, Hgt|].
  intros e [->|He]%elem_of_cons.
  - exists e0. split; [by left|done].
  - destruct (Hin e He) as (e1 & ? & ?). exists e1. split; [by right|done].
Qed.

(** X21: with a window of at least one event [Attention] returns an array
    whose events are re-addressed events of the argument, with their
    timestamps and polarities, still in ascending order of time when the
    argument was, and whose coordinates satisfy [0 <= x < W] and
    [0 <= y < H], where [size = [C, H, W]]: x is bounded by the width although
    it is centred by [H // 2]. *)
Theorem Attention_window (cfg : AttentionCfg) (tmad : list Event) :
  (0 < n_att_events cfg)%nat →
  ∃ out, Attention cfg tmad = Ok out ∧
    (length out ≤ length tmad)%nat ∧
    Forall (λ e, 0 ≤ ev_x e < att_W cfg ∧ 0 ≤ ev_y e < att_H cfg) out ∧
    (∀ e, e ∈ out → ∃ e0, e0 ∈ tmad ∧ ev_t e = ev_t e0 ∧ ev_p e = ev_p e0) ∧
    (is_sorted (map ev_t tmad) = true → is_sorted (map ev_t out) = true).
Proof.
  intros Hn. unfold Attention.
  destruct (Nat.eqb_spec (n_att_events cfg) 0) as [|_]; [lia|].
  eexists. split; [done|].
  set (g := λ (e : Event) (c : Z * Z), mkEvent _ _ _ _).
  set (cs := zip _ _).
  destruct (recentred_rows g tmad) with (cs := cs) as [Ht Hin]; [done| |].
  { unfold cs. rewrite length_zip_with, !length_rolling_median, !length_map. lia. }
  split_and!.
  - etrans; [apply length_filter|].
    rewrite length_zip_with. lia.
  - apply Forall_forall. by intros e [? _]%list_elem_of_filter.
  - intros e [_ He]%list_elem_of_filter. by apply Hin.
  - intros Hs. rewrite <-(map_id (filter _ _)).
    apply is_sorted_map_filter; [done|]. by rewrite Ht.
Qed.

Lemma Attention_window_witness :
  (0 < n_att_events (mkAttentionCfg 4 4 2))%nat ∧
  ∃ out, Attention (mkAttentionCfg 4 4 2) [mkEvent 0 0 5 5; mkEvent 1 1 9 5]
         = Ok out ∧
    (length out ≤ length [mkEvent 0 0 5 5; mkEvent 1 1 9 5])%nat ∧
    Forall (λ e, 0 ≤ ev_x e < att_W (mkAttentionCfg 4 4 2)
                 ∧ 0 ≤ ev_y e < att_H (mkAttentionCfg 4 4 2)) out ∧
    (∀ e, e ∈ out →
       ∃ e0, e0 ∈ [mkEvent 0 0 5 5; mkEvent 1 1 9 5]
             ∧ ev_t e = ev_t e0 ∧ ev_p e = ev_p e0) ∧
    (is_sorted (map ev_t [mkEvent 0 0 5 5; mkEvent 1 1 9 5]) = true
     → is_sorted (map ev_t out) = true).
Proof.
  assert (Hn : (0 < n_att_events (mkAttentionCfg 4 4 2))%nat) by (cbn; lia).
  split; [exact Hn|].
  apply (Attention_window (mkAttentionCfg 4 4 2)
           [mkEvent 0 0 5 5; mkEvent 1 1 9 5] Hn).
Defined.



